(** * AI meeting-notes summarizer: the Express server, embedded and verified

    The development follows [backend/server.js]: the two request handlers
    ([POST /api/summarize], [POST /api/share]), the summarizer with its local
    fallback ([generateSummary], [generateSimpleSummary]) and the mail loop
    ([sendEmail]).

    JavaScript strings are sequences of UTF-16 code units, request fields are
    JSON values, and the outside world (the completion API, the mail
    transport, the console, the timer) is reached through an explicit
    state-and-exception monad that records every outbound call in a trace. *)

From Stdlib Require Import List NArith Bool String Ascii Lia Arith.
Import ListNotations.

Set Implicit Arguments.
Set Warnings "-register-all".

(* ================================================================= *)
(** ** JavaScript strings *)

Module JsString.

(** A UTF-16 code unit. *)
Definition char := N.

Definition jsstring := list char.

(** An ASCII literal of the source as a string of code units. *)
Definition lit (s : string) : jsstring :=
  map N_of_ascii (list_ascii_of_string s).

(** ["\n"] and the double quote, which the literals below need. *)
Definition nl : jsstring := [10%N].
Definition dquote : jsstring := [34%N].

Fixpoint str_eqb (a b : jsstring) : bool :=
  match a, b with
  | [], [] => true
  | x :: a', y :: b' => N.eqb x y && str_eqb a' b'
  | _, _ => false
  end.

Definition is_empty (s : jsstring) : bool :=
  match s with [] => true | _ :: _ => false end.

(** [s.startsWith(p)] *)
Fixpoint startsWith (p s : jsstring) : bool :=
  match p, s with
  | [], _ => true
  | x :: p', y :: s' => N.eqb x y && startsWith p' s'
  | _ :: _, [] => false
  end.

(** [s.includes(p)] *)
Fixpoint includes (p s : jsstring) : bool :=
  startsWith p s ||
  match s with
  | [] => false
  | _ :: s' => includes p s'
  end.

(** [s.substring(0, n)] for [n] within the Number range used here. *)
Definition substring0 (n : nat) (s : jsstring) : jsstring := firstn n s.

(** [xs.join(sep)] on an array of strings. *)
Fixpoint join (sep : jsstring) (xs : list jsstring) : jsstring :=
  match xs with
  | [] => []
  | [x] => x
  | x :: rest => x ++ sep ++ join sep rest
  end.

(** WhiteSpace and LineTerminator code points, the set [String.prototype.trim]
    strips: TAB, LF, VT, FF, CR, SP, NBSP, U+1680, U+2000..U+200A, LS, PS,
    U+202F, U+205F, U+3000 and the BOM. *)
Definition is_white_space (c : char) : bool :=
  ((9 <=? c) && (c <=? 13) || (c =? 32) || (c =? 160) || (c =? 5760)
   || (8192 <=? c) && (c <=? 8202) || (c =? 8232) || (c =? 8233)
   || (c =? 8239) || (c =? 8287) || (c =? 12288) || (c =? 65279))%N.

Fixpoint trimStart (s : jsstring) : jsstring :=
  match s with
  | [] => []
  | c :: s' => if is_white_space c then trimStart s' else s
  end.

Definition trimEnd (s : jsstring) : jsstring := rev (trimStart (rev s)).

(** [s.trim()] *)
Definition trim (s : jsstring) : jsstring := trimEnd (trimStart s).

(** The character class [[.!?]] of the separator pattern. *)
Definition is_terminator (c : char) : bool :=
  ((c =? 46) || (c =? 33) || (c =? 63))%N.

(** [s.split(/[.!?]+/)]: the pieces of [s] between the maximal runs of
    terminators.  [in_run] says that the previous code unit belonged to a
    separator match, so that a further terminator extends that match instead
    of opening a new piece.  The result is never empty: the empty string
    splits into [[""]], and a separator at either end leaves an empty piece
    there. *)
Fixpoint split_from (in_run : bool) (s : jsstring) : list jsstring :=
  match s with
  | [] => [[]]
  | c :: s' =>
      if is_terminator c then
        if in_run then split_from true s' else [] :: split_from true s'
      else
        match split_from false s' with
        | piece :: pieces => (c :: piece) :: pieces
        | [] => [[c]]
        end
  end.

Definition split_sentences (s : jsstring) : list jsstring :=
  split_from false s.

(** The pieces of a split with the separator runs put back between them. *)
Fixpoint interleave (pieces seps : list jsstring) : jsstring :=
  match pieces, seps with
  | piece :: pieces', sep :: seps' => piece ++ sep ++ interleave pieces' seps'
  | piece :: _, [] => piece
  | [], _ => []
  end.

(** [s.split("\n")]: the text lines of a string. *)
Fixpoint lines (s : jsstring) : list jsstring :=
  match s with
  | [] => [[]]
  | c :: s' =>
      if (c =? 10)%N then [] :: lines s'
      else
        match lines s' with
        | line :: rest => (c :: line) :: rest
        | [] => [[c]]
        end
  end.

(** The strings of [fs] occur in [t] one after the other, in this order and
    without overlap. *)
Fixpoint occurs_in_order (fs : list jsstring) (t : jsstring) : Prop :=
  match fs with
  | [] => True
  | f :: fs' =>
      exists before after,
        t = before ++ f ++ after /\ occurs_in_order fs' after
  end.

End JsString.

Export JsString.

(* ================================================================= *)
(** ** JavaScript values and exceptions *)

Module JsValue.

(** The values a parsed request body or an upstream JSON payload can hold.
    A Number is kept as its [Number::toString] rendering, which is all this
    program observes of it (truthiness and interpolation). *)
Inductive jsval : Type :=
| JUndefined
| JNull
| JBool (b : bool)
| JNum (repr : jsstring)
| JStr (s : jsstring)
| JArr (elems : list jsval)
| JObj (fields : list (jsstring * jsval)).

Inductive Err : Type :=
| TypeError
| Error (message : jsstring)
| Rejected (reason : jsval).

Inductive Outcome (A : Type) : Type :=
| Ret (a : A)
| Throw (e : Err).

Arguments Ret {A} a.
Arguments Throw {A} e.

(** ToBoolean *)
Definition truthy (v : jsval) : bool :=
  match v with
  | JUndefined | JNull => false
  | JBool b => b
  | JNum r => negb (str_eqb r (lit "0") || str_eqb r (lit "NaN"))
  | JStr s => negb (is_empty s)
  | JArr _ | JObj _ => true
  end.

(** [Array.isArray] *)
Definition isArray (v : jsval) : bool :=
  match v with JArr _ => true | _ => false end.

Definition array_elems (v : jsval) : list jsval :=
  match v with JArr l => l | _ => [] end.

Fixpoint own_property (key : jsstring) (fields : list (jsstring * jsval))
  : option jsval :=
  match fields with
  | [] => None
  | (k, v) :: rest => if str_eqb k key then Some v else own_property key rest
  end.

(** ToString, as a template literal applies it; [None] is a thrown
    TypeError.  A parsed object holds no callable property, so an own
    [toString] entry hides [Object.prototype.toString] and the conversion
    fails; otherwise it yields ["[object Object]"].  An array joins the
    conversions of its elements with commas, [null] and [undefined] elements
    contributing the empty string. *)
Fixpoint to_string (v : jsval) : option jsstring :=
  match v with
  | JUndefined => Some (lit "undefined")
  | JNull => Some (lit "null")
  | JBool true => Some (lit "true")
  | JBool false => Some (lit "false")
  | JNum r => Some r
  | JStr s => Some s
  | JArr elems =>
      (fix join_elems (l : list jsval) : option jsstring :=
         let elem_string (x : jsval) :=
           match x with
           | JUndefined | JNull => Some []
           | _ => to_string x
           end in
         match l with
         | [] => Some []
         | [x] => elem_string x
         | x :: rest =>
             match elem_string x, join_elems rest with
             | Some a, Some b => Some (a ++ lit "," ++ b)
             | _, _ => None
             end
         end) elems
  | JObj fields =>
      match own_property (lit "toString") fields with
      | Some _ => None
      | None => Some (lit "[object Object]")
      end
  end.

Definition interpolate (v : jsval) : Outcome jsstring :=
  match to_string v with
  | Some s => Ret s
  | None => Throw TypeError
  end.

(** [v.name] for the property names this program reads ([data], [choices],
    [message], [content]), none of which the built-in prototypes define. *)
Definition get_prop (v : jsval) (name : jsstring) : Outcome jsval :=
  match v with
  | JUndefined | JNull => Throw TypeError
  | JObj fields =>
      match own_property name fields with
      | Some x => Ret x
      | None => Ret JUndefined
      end
  | _ => Ret JUndefined
  end.

(** [v[0]] *)
Definition get_first (v : jsval) : Outcome jsval :=
  match v with
  | JUndefined | JNull => Throw TypeError
  | JArr (x :: _) => Ret x
  | JStr (c :: _) => Ret (JStr [c])
  | JObj fields =>
      match own_property (lit "0") fields with
      | Some x => Ret x
      | None => Ret JUndefined
      end
  | _ => Ret JUndefined
  end.

End JsValue.

Export JsValue.

(* ================================================================= *)
(** ** The fallback summarizer *)

Module Fallback.

(** The bullet marker of the template literal in [keyPoints], code unit by
    code unit as the server source holds it, followed by a space. *)
Definition bullet : jsstring := [226; 8364; 162; 32]%N.

(** [s => s.trim().length > 10] *)
Definition long_enough (s : jsstring) : bool := 10 <? List.length (trim s).

(** [const sentences = transcript.split(/[.!?]+/).filter(...)] *)
Definition sentences (transcript : jsstring) : list jsstring :=
  filter long_enough (split_sentences transcript).

(** [const keyPoints = sentences.slice(0, 5).map(...)] *)
Definition keyPoints (transcript : jsstring) : list jsstring :=
  map (fun s => bullet ++ trim s) (firstn 5 (sentences transcript)).

Definition generateSimpleSummary (transcript : jsstring) (customPrompt : jsval)
  : Outcome jsstring :=
  let summary := lit "Summary:" ++ nl ++ join nl (keyPoints transcript) in
  if truthy customPrompt then
    match interpolate customPrompt with
    | Ret prompt =>
        Ret (lit "Custom Instructions: " ++ prompt ++ nl ++ nl ++ summary)
    | Throw e => Throw e
    end
  else Ret summary.

End Fallback.

Export Fallback.

(* ================================================================= *)
(** ** The server: effects, collaborators and handlers *)

Module Server.

(** The message object handed to [sgMail.send]. *)
Record Msg : Type := {
  msg_to : jsval;
  msg_from : jsval;
  msg_subject : jsval;
  msg_text : jsval;
  msg_html : jsstring
}.

(** What a request does to the outside, in the order it happens. *)
Inductive Event : Type :=
| ConsoleLog (args : list jsval)
| ConsoleError (label : jsstring) (error : Err)
| AxiosPost (url : jsstring) (data config : jsval)
| SetApiKey (key : jsstring)
| SgSend (msg : Msg) (failure : option Err)
| SetTimeout (ms : N).

(** [res.status(code).json(body)] *)
Record Response : Type := {
  status : N;
  json : jsval
}.

(** The destructured fields of [req.body]; a missing field is
    [JUndefined]. *)
Record ShareBody : Type := {
  share_summary : jsval;
  share_recipients : jsval;
  share_subject : jsval;
  share_sender : jsval
}.

(** [req.file] (the uploaded buffer decoded as UTF-8, when [multer] accepted
    a file) and the two fields read from [req.body]. *)
Record SummarizeReq : Type := {
  req_file : option jsstring;
  req_customPrompt : jsval;
  req_transcript : jsval
}.

Definition default_sender : jsstring := lit "amanbhagat.191@gmail.com".

Definition html_body (summary : jsstring) : jsstring :=
  lit "<div style=" ++ dquote
  ++ lit "font-family: Arial, sans-serif; line-height: 1.6;" ++ dquote
  ++ lit ">" ++ nl
  ++ lit "          <h2>Meeting Summary</h2>" ++ nl
  ++ lit "          <div style=" ++ dquote ++ lit "white-space: pre-wrap;"
  ++ dquote ++ lit ">" ++ summary ++ lit "</div>" ++ nl
  ++ lit "        </div>".

(** The message the loop of [sendEmail] builds for one recipient, [shown]
    being the summary as the template literal renders it. *)
Definition mail_for (subject summary sender : jsval) (shown : jsstring)
    (recipient : jsval) : Msg :=
  {| msg_to := recipient;
     msg_from := sender;
     msg_subject := subject;
     msg_text := summary;
     msg_html := html_body shown |}.

(** The [sender] parameter with its default applied. *)
Definition sender_or_default (sender_arg : jsval) : jsval :=
  match sender_arg with
  | JUndefined => JStr default_sender
  | _ => sender_arg
  end.

Section WithWorld.

(** The state of everything outside the process. *)
Variable World : Type.

(** The collaborators: [process.env], the HTTP client and the mail client.
    Each call may resolve or reject, and changes the world. *)
Record Env : Type := {
  process_env : list (jsstring * jsstring);
  http_post : jsstring -> jsval -> jsval -> World -> Outcome jsval * World;
  sg_setApiKey : jsstring -> World -> World;
  sg_send : Msg -> World -> Outcome unit * World
}.

Record State : Type := {
  world : World;
  trace : list Event
}.

(** Computations that read and change the state and may throw. *)
Definition M (A : Type) : Type := State -> Outcome A * State.

Definition ret {A} (a : A) : M A := fun s => (Ret a, s).

Definition throw {A} (e : Err) : M A := fun s => (Throw e, s).

Definition lift {A} (o : Outcome A) : M A := fun s => (o, s).

Definition bind {A B} (m : M A) (k : A -> M B) : M B :=
  fun s =>
    match m s with
    | (Ret a, s') => k a s'
    | (Throw e, s') => (Throw e, s')
    end.

(** [try { m } catch (error) { h error }]: effects done before the throw
    stay done. *)
Definition try_catch {A} (m : M A) (h : Err -> M A) : M A :=
  fun s =>
    match m s with
    | (Ret a, s') => (Ret a, s')
    | (Throw e, s') => h e s'
    end.

Definition emit (ev : Event) : M unit :=
  fun s => (Ret tt, {| world := world s; trace := trace s ++ [ev] |}).

Notation "x <- m ;; k" := (bind m (fun x => k))
  (at level 61, m at next level, right associativity).
Notation "m ;; k" := (bind m (fun _ => k))
  (at level 61, right associativity).

Variable E : Env.

Definition getenv (name : jsstring) : option jsstring :=
  (fix lookup (vars : list (jsstring * jsstring)) : option jsstring :=
     match vars with
     | [] => None
     | (k, v) :: rest => if str_eqb k name then Some v else lookup rest
     end) (process_env E).

(** [!value] is false exactly for a set, non-empty variable. *)
Definition configured (value : option jsstring) : bool :=
  match value with
  | Some (_ :: _) => true
  | _ => false
  end.

Definition env_string (value : option jsstring) : jsstring :=
  match value with Some v => v | None => [] end.

Definition console_log (args : list jsval) : M unit := emit (ConsoleLog args).

Definition console_error (label : jsstring) (error : Err) : M unit :=
  emit (ConsoleError label error).

(** [await axios.post(url, data, config)] *)
Definition axios_post (url : jsstring) (data config : jsval) : M jsval :=
  fun s =>
    let (r, w) := http_post E url data config (world s) in
    (r, {| world := w; trace := trace s ++ [AxiosPost url data config] |}).

Definition sgMail_setApiKey (key : jsstring) : M unit :=
  fun s =>
    (Ret tt, {| world := sg_setApiKey E key (world s);
                trace := trace s ++ [SetApiKey key] |}).

(** [await sgMail.send(msg)] *)
Definition sgMail_send (msg : Msg) : M unit :=
  fun s =>
    let (r, w) := sg_send E msg (world s) in
    let failure := match r with Ret _ => None | Throw e => Some e end in
    (r, {| world := w; trace := trace s ++ [SgSend msg failure] |}).

(* ----------------------------------------------------------------- *)
(** *** [generateSummary] *)

Definition groq_url : jsstring :=
  lit "https://api.groq.com/openai/v1/chat/completions".

Definition default_instructions : jsstring :=
  lit "Provide a clear summary of the key points discussed in this meeting.".

Definition system_content : jsstring :=
  lit "You are a professional meeting summarizer. Create clear, structured summaries based on user instructions.".

(** The body of the [try] block past the credential check: the request to
    the completion API and the extraction of
    [response.data.choices[0].message.content]. *)
Definition completion_call (groqApiKey transcript : jsstring)
    (customPrompt : jsval) : M jsval :=
  instructions <-
    lift (interpolate (if truthy customPrompt then customPrompt
                       else JStr default_instructions)) ;;
  response <-
    axios_post groq_url
      (JObj [(lit "model", JStr (lit "llama3-8b-8192"));
             (lit "messages",
              JArr [JObj [(lit "role", JStr (lit "system"));
                          (lit "content", JStr system_content)];
                    JObj [(lit "role", JStr (lit "user"));
                          (lit "content",
                           JStr (lit "Transcript: " ++ transcript ++ nl ++ nl
                                 ++ lit "Instructions: " ++ instructions))]]);
             (lit "temperature", JNum (lit "0.7"));
             (lit "max_tokens", JNum (lit "1000"))])
      (JObj [(lit "headers",
              JObj [(lit "Authorization",
                     JStr (lit "Bearer " ++ groqApiKey));
                    (lit "Content-Type", JStr (lit "application/json"))])]) ;;
  data <- lift (get_prop response (lit "data")) ;;
  choices <- lift (get_prop data (lit "choices")) ;;
  choice <- lift (get_first choices) ;;
  message <- lift (get_prop choice (lit "message")) ;;
  lift (get_prop message (lit "content")).

Definition simple_summary (transcript : jsstring) (customPrompt : jsval)
  : M jsval :=
  summary <- lift (generateSimpleSummary transcript customPrompt) ;;
  ret (JStr summary).

Definition generateSummary (transcript : jsstring) (customPrompt : jsval)
  : M jsval :=
  try_catch
    (let groqApiKey := getenv (lit "GROQ_API_KEY") in
     if negb (configured groqApiKey) then
       simple_summary transcript customPrompt
     else
       completion_call (env_string groqApiKey) transcript customPrompt)
    (fun error =>
       console_error (lit "AI service error:") error ;;
       simple_summary transcript customPrompt).

(* ----------------------------------------------------------------- *)
(** *** [sendEmail] *)

(** The [for ... of] loop over the recipients. *)
Fixpoint send_each (recipients : list jsval) (subject summary sender : jsval)
  : M unit :=
  match recipients with
  | [] => ret tt
  | recipient :: rest =>
      shown_summary <- lift (interpolate summary) ;;
      sgMail_send (mail_for subject summary sender shown_summary recipient) ;;
      shown_recipient <- lift (interpolate recipient) ;;
      console_log
        [JStr (lit "Email sent successfully to: " ++ shown_recipient)] ;;
      send_each rest subject summary sender
  end.

Definition key_preview (sendgridApiKey : option jsstring) (absent : jsstring)
  : jsval :=
  if configured sendgridApiKey
  then JStr (substring0 10 (env_string sendgridApiKey) ++ lit "...")
  else JStr absent.

(** [recipients] holds the elements of the array the handler passes. *)
Definition sendEmail (recipients : list jsval) (subject summary : jsval)
    (sender_arg : jsval) : M bool :=
  let sender := sender_or_default sender_arg in
  try_catch
    (let sendgridApiKey := getenv (lit "SENDGRID_API_KEY") in
     console_log [JStr (lit "Debug: SENDGRID_API_KEY =");
                  key_preview sendgridApiKey (lit "NOT FOUND")] ;;
     console_log [JStr (lit "Debug: All environment variables:");
                  JArr (map JStr (filter (includes (lit "SENDGRID"))
                                         (map fst (process_env E))))] ;;
     if negb (configured sendgridApiKey) then
       console_log [JStr (lit "Email would be sent to:"); JArr recipients] ;;
       console_log [JStr (lit "Subject:"); subject] ;;
       console_log [JStr (lit "Content:"); summary] ;;
       console_log [JStr (lit "Note: To send real emails, configure SENDGRID_API_KEY in .env file")] ;;
       emit (SetTimeout 1000) ;;
       ret true
     else if negb (startsWith (lit "SG.") (env_string sendgridApiKey)) then
       console_log [JStr (lit "Error: SendGrid API key must start with "
                          ++ dquote ++ lit "SG." ++ dquote)] ;;
       console_log [JStr (lit "Current API key format:");
                    key_preview sendgridApiKey (lit "EMPTY")] ;;
       throw (Error (lit "Invalid SendGrid API key format"))
     else
       sgMail_setApiKey (env_string sendgridApiKey) ;;
       send_each recipients subject summary sender ;;
       ret true)
    (fun error =>
       console_error (lit "Email sending failed:") error ;;
       throw error).

(* ----------------------------------------------------------------- *)
(** *** The two routes *)

Definition error_response (code : N) (message : jsstring) : Response :=
  {| status := code; json := JObj [(lit "error", JStr message)] |}.

(** The [transcriptText] the summarize handler settles on: the uploaded file
    when there is one, else a truthy [transcript] field; [None] when neither
    is there and the handler answers at once. *)
Definition transcriptText (req : SummarizeReq) : option jsval :=
  match req_file req with
  | Some content => Some (JStr content)
  | None =>
      if truthy (req_transcript req) then Some (req_transcript req) else None
  end.

(** [app.post('/api/summarize', ...)].  Calling [trim] on a value that is not
    a string throws a TypeError. *)
Definition api_summarize (req : SummarizeReq) : M Response :=
  try_catch
    (let customPrompt := req_customPrompt req in
     match transcriptText req with
     | None => ret (error_response 400 (lit "No transcript provided"))
     | Some (JStr text) =>
         if is_empty (trim text) then
           ret (error_response 400 (lit "Transcript is empty"))
         else
           summary <- generateSummary text customPrompt ;;
           ret {| status := 200;
                  json := JObj [(lit "success", JBool true);
                                (lit "summary", summary);
                                (lit "originalText", JStr text)] |}
     | Some _ => throw TypeError
     end)
    (fun error =>
       console_error (lit "Summarization error:") error ;;
       ret (error_response 500 (lit "Failed to generate summary"))).

(** [app.post('/api/share', ...)] *)
Definition api_share (body : ShareBody) : M Response :=
  try_catch
    (let summary := share_summary body in
     let recipients := share_recipients body in
     let subject := share_subject body in
     let sender := share_sender body in
     if negb (truthy summary) || negb (truthy recipients)
        || negb (isArray recipients) then
       ret (error_response 400 (lit "Invalid request data"))
     else
       sendEmail (array_elems recipients) subject summary sender ;;
       ret {| status := 200;
              json := JObj [(lit "success", JBool true);
                            (lit "message",
                             JStr (lit "Summary shared successfully"))] |})
    (fun error =>
       console_error (lit "Email error:") error ;;
       ret (error_response 500 (lit "Failed to send email"))).

End WithWorld.

(** The delivery calls recorded in a trace, oldest first. *)
Fixpoint sends (tr : list Event) : list (Msg * option Err) :=
  match tr with
  | [] => []
  | SgSend msg failure :: rest => (msg, failure) :: sends rest
  | _ :: rest => sends rest
  end.

(** The completion calls recorded in a trace. *)
Fixpoint posts (tr : list Event) : list Event :=
  match tr with
  | [] => []
  | AxiosPost url data config :: rest => AxiosPost url data config :: posts rest
  | _ :: rest => posts rest
  end.

End Server.

Export Server.

(* ================================================================= *)
(** ** Sample environments and requests *)

Module Samples.

(** The sample world counts the delivery calls made so far. *)
Definition start : State nat := {| world := 0; trace := [] |}.

Definition network_error : Err := Error (lit "Network Error").

Definition post_down (url : jsstring) (data config : jsval) (w : nat)
  : Outcome jsval * nat :=
  (Throw network_error, w).

(** A completion API that answers every request with the text ["Done"]. *)
Definition post_up (url : jsstring) (data config : jsval) (w : nat)
  : Outcome jsval * nat :=
  (Ret (JObj [(lit "data",
               JObj [(lit "choices",
                      JArr [JObj [(lit "message",
                                   JObj [(lit "content",
                                          JStr (lit "Done"))])]])])]),
   w).

(** A mail transport that accepts every message. *)
Definition send_ok (msg : Msg) (w : nat) : Outcome unit * nat :=
  (Ret tt, S w).

(** A mail transport that rejects its second call. *)
Definition send_second_fails (msg : Msg) (w : nat) : Outcome unit * nat :=
  match w with
  | 1 => (Throw (Error (lit "Bad Request")), S w)
  | _ => (Ret tt, S w)
  end.

Definition env_with (vars : list (jsstring * jsstring))
    (post : jsstring -> jsval -> jsval -> nat -> Outcome jsval * nat)
    (send : Msg -> nat -> Outcome unit * nat) : Env nat :=
  {| process_env := vars;
     http_post := post;
     sg_setApiKey := fun _ w => w;
     sg_send := send |}.

(** No credential at all. *)
Definition env_bare : Env nat := env_with [] post_down send_ok.

(** A well-formed mail credential, the transport rejecting its second
    call. *)
Definition env_mail : Env nat :=
  env_with [(lit "SENDGRID_API_KEY", lit "SG.sample-key")]
           post_down send_second_fails.

(** A well-formed mail credential and a transport that accepts everything. *)
Definition env_mail_ok : Env nat :=
  env_with [(lit "SENDGRID_API_KEY", lit "SG.sample-key")] post_down send_ok.

(** A mail credential without the [SG.] prefix. *)
Definition env_bad_mail_key : Env nat :=
  env_with [(lit "SENDGRID_API_KEY", lit "sample-key")] post_down send_ok.

(** A completion credential, with the API unreachable. *)
Definition env_groq_down : Env nat :=
  env_with [(lit "GROQ_API_KEY", lit "gsk_sample")] post_down send_ok.

(** A completion credential, with the API answering. *)
Definition env_groq_up : Env nat :=
  env_with [(lit "GROQ_API_KEY", lit "gsk_sample")] post_up send_ok.

Definition five_fragments : jsstring :=
  lit "We discussed the budget. It was long. Nothing else matters here really. This is fragment four. This is the fifth one.".

Definition two_fragments : jsstring :=
  lit "Budget review went fine. Ok. Fine! Next meeting is on Monday?".

Definition share_to (recipients : jsval) : ShareBody :=
  {| share_summary := JStr (lit "Notes");
     share_recipients := recipients;
     share_subject := JStr (lit "Meeting Summary Shared");
     share_sender := JUndefined |}.

Definition three_recipients : list jsval :=
  [JStr (lit "ann@example.org"); JStr (lit "bob@example.org");
   JStr (lit "cy@example.org")].

Definition summarize_text (transcript : jsval) : SummarizeReq :=
  {| req_file := None;
     req_customPrompt := JUndefined;
     req_transcript := transcript |}.

Definition summarize_file (content : jsstring) (transcript : jsval)
  : SummarizeReq :=
  {| req_file := Some content;
     req_customPrompt := JUndefined;
     req_transcript := transcript |}.

End Samples.

Export Samples.

(* ================================================================= *)
(** ** The completion request, part by part *)

Module Completion.

(** [customPrompt || 'Provide a clear summary ...'] *)
Definition instructions_of (customPrompt : jsval) : jsval :=
  if truthy customPrompt then customPrompt else JStr default_instructions.

(** The content of the user message. *)
Definition user_content (transcript instructions : jsstring) : jsstring :=
  lit "Transcript: " ++ transcript ++ nl ++ nl
  ++ lit "Instructions: " ++ instructions.

(** The body posted to the completion API. *)
Definition completion_data (transcript instructions : jsstring) : jsval :=
  JObj [(lit "model", JStr (lit "llama3-8b-8192"));
        (lit "messages",
         JArr [JObj [(lit "role", JStr (lit "system"));
                     (lit "content", JStr system_content)];
               JObj [(lit "role", JStr (lit "user"));
                     (lit "content",
                      JStr (user_content transcript instructions))]]);
        (lit "temperature", JNum (lit "0.7"));
        (lit "max_tokens", JNum (lit "1000"))].

(** The request configuration: the two headers. *)
Definition completion_config (groqApiKey : jsstring) : jsval :=
  JObj [(lit "headers",
         JObj [(lit "Authorization", JStr (lit "Bearer " ++ groqApiKey));
               (lit "Content-Type", JStr (lit "application/json"))])].

(** [response.data.choices[0].message.content] *)
Definition extract_content (response : jsval) : Outcome jsval :=
  match get_prop response (lit "data") with
  | Throw e => Throw e
  | Ret data =>
      match get_prop data (lit "choices") with
      | Throw e => Throw e
      | Ret choices =>
          match get_first choices with
          | Throw e => Throw e
          | Ret choice =>
              match get_prop choice (lit "message") with
              | Throw e => Throw e
              | Ret message => get_prop message (lit "content")
              end
          end
      end
  end.

(** Events that are console lines. *)
Definition is_console (ev : Event) : bool :=
  match ev with
  | ConsoleLog _ | ConsoleError _ _ => true
  | _ => false
  end.

End Completion.

Export Completion.

(* ================================================================= *)
(** ** The page: [frontend/src/App.js] *)

Module Page.

(** The thirteen [useState] cells of [App].  The summary cells hold whatever
    the server sent, the error cell whatever [error.response.data.error]
    was. *)
Record AppState : Type := {
  transcript : jsstring;
  customPrompt : jsstring;
  summary : jsval;
  editableSummary : jsval;
  isLoading : bool;
  error : jsval;
  success : jsstring;
  showShare : bool;
  shareSubject : jsstring;
  shareSender : jsstring;
  shareRecipients : jsstring;
  recipientTags : list jsstring;
  isSharing : bool
}.

(** The initial values given to [useState]. *)
Definition initial : AppState :=
  {| transcript := [];
     customPrompt := [];
     summary := JStr [];
     editableSummary := JStr [];
     isLoading := false;
     error := JStr [];
     success := [];
     showShare := false;
     shareSubject := [];
     shareSender := lit "amanbhagat.191@gmail.com";
     shareRecipients := [];
     recipientTags := [];
     isSharing := false |}.

(** The setters. *)
Definition setTranscript (v : jsstring) (st : AppState) : AppState :=
  {| transcript := v; customPrompt := customPrompt st; summary := summary st;
     editableSummary := editableSummary st; isLoading := isLoading st;
     error := error st; success := success st; showShare := showShare st;
     shareSubject := shareSubject st; shareSender := shareSender st;
     shareRecipients := shareRecipients st;
     recipientTags := recipientTags st; isSharing := isSharing st |}.

Definition setCustomPrompt (v : jsstring) (st : AppState) : AppState :=
  {| transcript := transcript st; customPrompt := v; summary := summary st;
     editableSummary := editableSummary st; isLoading := isLoading st;
     error := error st; success := success st; showShare := showShare st;
     shareSubject := shareSubject st; shareSender := shareSender st;
     shareRecipients := shareRecipients st;
     recipientTags := recipientTags st; isSharing := isSharing st |}.

Definition setSummary (v : jsval) (st : AppState) : AppState :=
  {| transcript := transcript st; customPrompt := customPrompt st;
     summary := v;
     editableSummary := editableSummary st; isLoading := isLoading st;
     error := error st; success := success st; showShare := showShare st;
     shareSubject := shareSubject st; shareSender := shareSender st;
     shareRecipients := shareRecipients st;
     recipientTags := recipientTags st; isSharing := isSharing st |}.

Definition setEditableSummary (v : jsval) (st : AppState) : AppState :=
  {| transcript := transcript st; customPrompt := customPrompt st;
     summary := summary st;
     editableSummary := v; isLoading := isLoading st;
     error := error st; success := success st; showShare := showShare st;
     shareSubject := shareSubject st; shareSender := shareSender st;
     shareRecipients := shareRecipients st;
     recipientTags := recipientTags st; isSharing := isSharing st |}.

Definition setIsLoading (v : bool) (st : AppState) : AppState :=
  {| transcript := transcript st; customPrompt := customPrompt st;
     summary := summary st;
     editableSummary := editableSummary st; isLoading := v;
     error := error st; success := success st; showShare := showShare st;
     shareSubject := shareSubject st; shareSender := shareSender st;
     shareRecipients := shareRecipients st;
     recipientTags := recipientTags st; isSharing := isSharing st |}.

Definition setError (v : jsval) (st : AppState) : AppState :=
  {| transcript := transcript st; customPrompt := customPrompt st;
     summary := summary st;
     editableSummary := editableSummary st; isLoading := isLoading st;
     error := v; success := success st; showShare := showShare st;
     shareSubject := shareSubject st; shareSender := shareSender st;
     shareRecipients := shareRecipients st;
     recipientTags := recipientTags st; isSharing := isSharing st |}.

Definition setSuccess (v : jsstring) (st : AppState) : AppState :=
  {| transcript := transcript st; customPrompt := customPrompt st;
     summary := summary st;
     editableSummary := editableSummary st; isLoading := isLoading st;
     error := error st; success := v; showShare := showShare st;
     shareSubject := shareSubject st; shareSender := shareSender st;
     shareRecipients := shareRecipients st;
     recipientTags := recipientTags st; isSharing := isSharing st |}.

Definition setShowShare (v : bool) (st : AppState) : AppState :=
  {| transcript := transcript st; customPrompt := customPrompt st;
     summary := summary st;
     editableSummary := editableSummary st; isLoading := isLoading st;
     error := error st; success := success st; showShare := v;
     shareSubject := shareSubject st; shareSender := shareSender st;
     shareRecipients := shareRecipients st;
     recipientTags := recipientTags st; isSharing := isSharing st |}.

Definition setShareSubject (v : jsstring) (st : AppState) : AppState :=
  {| transcript := transcript st; customPrompt := customPrompt st;
     summary := summary st;
     editableSummary := editableSummary st; isLoading := isLoading st;
     error := error st; success := success st; showShare := showShare st;
     shareSubject := v; shareSender := shareSender st;
     shareRecipients := shareRecipients st;
     recipientTags := recipientTags st; isSharing := isSharing st |}.

Definition setShareSender (v : jsstring) (st : AppState) : AppState :=
  {| transcript := transcript st; customPrompt := customPrompt st;
     summary := summary st;
     editableSummary := editableSummary st; isLoading := isLoading st;
     error := error st; success := success st; showShare := showShare st;
     shareSubject := shareSubject st; shareSender := v;
     shareRecipients := shareRecipients st;
     recipientTags := recipientTags st; isSharing := isSharing st |}.

Definition setShareRecipients (v : jsstring) (st : AppState) : AppState :=
  {| transcript := transcript st; customPrompt := customPrompt st;
     summary := summary st;
     editableSummary := editableSummary st; isLoading := isLoading st;
     error := error st; success := success st; showShare := showShare st;
     shareSubject := shareSubject st; shareSender := shareSender st;
     shareRecipients := v;
     recipientTags := recipientTags st; isSharing := isSharing st |}.

Definition setRecipientTags (v : list jsstring) (st : AppState) : AppState :=
  {| transcript := transcript st; customPrompt := customPrompt st;
     summary := summary st;
     editableSummary := editableSummary st; isLoading := isLoading st;
     error := error st; success := success st; showShare := showShare st;
     shareSubject := shareSubject st; shareSender := shareSender st;
     shareRecipients := shareRecipients st;
     recipientTags := v; isSharing := isSharing st |}.

Definition setIsSharing (v : bool) (st : AppState) : AppState :=
  {| transcript := transcript st; customPrompt := customPrompt st;
     summary := summary st;
     editableSummary := editableSummary st; isLoading := isLoading st;
     error := error st; success := success st; showShare := showShare st;
     shareSubject := shareSubject st; shareSender := shareSender st;
     shareRecipients := shareRecipients st;
     recipientTags := recipientTags st; isSharing := v |}.

(** How an [axios.post] of the page ends: the promise resolves with
    [response.data], or it rejects with an error whose [response], when the
    server answered at all, carries the body of the answer. *)
Inductive AxiosResult : Type :=
| Resolved (data : jsval)
| Rejected (response_data : option jsval).

(** [v?.name], for the names [error], [success] and [summary], which no
    built-in prototype defines. *)
Definition optional_prop (v : jsval) (name : jsstring) : jsval :=
  match get_prop v name with
  | Ret x => x
  | Throw _ => JUndefined
  end.

(** [error.response?.data?.error || fallback] *)
Definition error_message (response_data : option jsval) (fallback : jsstring)
  : jsval :=
  let shown :=
    match response_data with
    | Some data => optional_prop data (lit "error")
    | None => JUndefined
    end in
  if truthy shown then shown else JStr fallback.

(** [handleFileUpload]: [file] is the text of [event.target.files[0]] as
    [readAsText] delivers it, when a file was chosen. *)
Definition handleFileUpload (file : option jsstring) (st : AppState)
  : AppState :=
  match file with
  | Some text => setError (JStr []) (setTranscript text st)
  | None => st
  end.

(** [handleGenerateSummary] up to its [await]: the new state and the body
    it posts to [/api/summarize], if it posts. *)
Definition handleGenerateSummary_begin (st : AppState)
  : AppState * option SummarizeReq :=
  if is_empty (trim (transcript st)) then
    (setError (JStr (lit "Please enter or upload a transcript")) st, None)
  else
    (setSuccess [] (setError (JStr []) (setIsLoading true st)),
     Some {| req_file := None;
             req_customPrompt := JStr (customPrompt st);
             req_transcript := JStr (transcript st) |}).

(** [handleGenerateSummary] from its [await] on.  Reading [success] off a
    missing body throws inside the [try], and the [catch] then sees an error
    without [response]. *)
Definition handleGenerateSummary_end (result : AxiosResult) (st : AppState)
  : AppState :=
  let fallback := lit "Failed to generate summary. Please try again." in
  setIsLoading false
    match result with
    | Resolved data =>
        match get_prop data (lit "success") with
        | Ret flag =>
            if truthy flag then
              let received := optional_prop data (lit "summary") in
              setSuccess
                (lit "Summary generated successfully! You can now edit it if needed.")
                (setEditableSummary received (setSummary received st))
            else st
        | Throw _ => setError (error_message None fallback) st
        end
    | Rejected response_data =>
        setError (error_message response_data fallback) st
    end.

(** [handleShare] up to its [await].  Calling [trim] on an edited summary
    that is not a string throws before anything is set. *)
Definition handleShare_begin (st : AppState)
  : Outcome (AppState * option ShareBody) :=
  match editableSummary st with
  | JStr text =>
      if is_empty (trim text)
         || Nat.eqb (List.length (recipientTags st)) 0 then
        Ret (setError
               (JStr (lit "Please enter a summary and at least one recipient"))
               st,
             None)
      else
        Ret (setSuccess [] (setError (JStr []) (setIsSharing true st)),
             Some {| share_summary := JStr text;
                     share_recipients := JArr (map JStr (recipientTags st));
                     share_subject :=
                       JStr (if is_empty (shareSubject st)
                             then lit "Meeting Summary Shared"
                             else shareSubject st);
                     share_sender := JStr (shareSender st) |})
  | _ => Throw TypeError
  end.

(** [handleShare] from its [await] on. *)
Definition handleShare_end (result : AxiosResult) (st : AppState) : AppState :=
  let fallback := lit "Failed to share summary. Please try again." in
  setIsSharing false
    match result with
    | Resolved data =>
        match get_prop data (lit "success") with
        | Ret flag =>
            if truthy flag then
              setRecipientTags []
                (setShareRecipients []
                   (setShareSubject []
                      (setShowShare false
                         (setSuccess (lit "Summary shared successfully!")
                            st))))
            else st
        | Throw _ => setError (error_message None fallback) st
        end
    | Rejected response_data =>
        setError (error_message response_data fallback) st
    end.

(** [recipientTags.includes(email)] *)
Definition tags_include (email : jsstring) (tags : list jsstring) : bool :=
  existsb (str_eqb email) tags.

Definition addRecipient (st : AppState) : AppState :=
  let email := trim (shareRecipients st) in
  if negb (is_empty email) && negb (tags_include email (recipientTags st))
  then setShareRecipients [] (setRecipientTags (recipientTags st ++ [email]) st)
  else st.

Definition removeRecipient (email : jsstring) (st : AppState) : AppState :=
  setRecipientTags
    (filter (fun r => negb (str_eqb r email)) (recipientTags st)) st.

(** [handleKeyPress]: [key] is [e.key]. *)
Definition handleKeyPress (key : jsstring) (st : AppState) : AppState :=
  if str_eqb key (lit "Enter") then addRecipient st else st.

Definition resetForm (st : AppState) : AppState :=
  setRecipientTags []
    (setShareRecipients []
       (setShareSubject []
          (setShowShare false
             (setSuccess []
                (setError (JStr [])
                   (setEditableSummary (JStr [])
                      (setSummary (JStr [])
                         (setCustomPrompt [] (setTranscript [] st))))))))).

(** Everything a user, the file reader and the network can do to the
    page. *)
Inductive Action : Type :=
| TypeTranscript (text : jsstring)
| TypeCustomPrompt (text : jsstring)
| PickFile (file : option jsstring)
| ClickGenerate
| SummarizeAnswer (result : AxiosResult)
| TypeSummary (text : jsstring)
| ToggleShare
| TypeSender (text : jsstring)
| TypeSubject (text : jsstring)
| TypeRecipient (text : jsstring)
| PressKey (key : jsstring)
| ClickAdd
| ClickRemove (email : jsstring)
| ClickShare
| ShareAnswer (result : AxiosResult)
| ClickStartOver.

(** One action.  A handler that throws leaves the state as it was. *)
Definition act (a : Action) (st : AppState) : AppState :=
  match a with
  | TypeTranscript text => setTranscript text st
  | TypeCustomPrompt text => setCustomPrompt text st
  | PickFile file => handleFileUpload file st
  | ClickGenerate => fst (handleGenerateSummary_begin st)
  | SummarizeAnswer result => handleGenerateSummary_end result st
  | TypeSummary text => setEditableSummary (JStr text) st
  | ToggleShare => setShowShare (negb (showShare st)) st
  | TypeSender text => setShareSender text st
  | TypeSubject text => setShareSubject text st
  | TypeRecipient text => setShareRecipients text st
  | PressKey key => handleKeyPress key st
  | ClickAdd => addRecipient st
  | ClickRemove email => removeRecipient email st
  | ClickShare =>
      match handleShare_begin st with
      | Ret (st', _) => st'
      | Throw _ => st
      end
  | ShareAnswer result => handleShare_end result st
  | ClickStartOver => resetForm st
  end.

(** The page after a sequence of actions, oldest first. *)
Definition after (actions : list Action) (st : AppState) : AppState :=
  fold_left (fun st a => act a st) actions st.

(** A body after [res.json] wrote it and the page parsed it again:
    [JSON.stringify] drops the fields that are [undefined], writes [null]
    for an [undefined] array element and for a number that is not finite,
    and keeps everything else. *)
Fixpoint wire (v : jsval) : jsval :=
  match v with
  | JNum r =>
      if str_eqb r (lit "NaN") || str_eqb r (lit "Infinity")
         || str_eqb r (lit "-Infinity")
      then JNull else JNum r
  | JArr elems =>
      JArr ((fix wire_elems (l : list jsval) : list jsval :=
               match l with
               | [] => []
               | JUndefined :: rest => JNull :: wire_elems rest
               | x :: rest => wire x :: wire_elems rest
               end) elems)
  | JObj fields =>
      JObj ((fix wire_fields (l : list (jsstring * jsval))
               : list (jsstring * jsval) :=
               match l with
               | [] => []
               | (_, JUndefined) :: rest => wire_fields rest
               | (k, x) :: rest => (k, wire x) :: wire_fields rest
               end) fields)
  | _ => v
  end.

(** What [axios] makes of an answer of the server: a status from 200 to 299
    resolves, any other rejects with the answer as [error.response]. *)
Definition axios_result (resp : Response) : AxiosResult :=
  if ((200 <=? status resp) && (status resp <? 300))%N
  then Resolved (wire (json resp))
  else Rejected (Some (wire (json resp))).

End Page.

(* ================================================================= *)
(** ** Sample pages *)

Module PageSamples.

(** A transcript typed into the page. *)
Definition page_with_transcript : Page.AppState :=
  Page.after [Page.TypeTranscript two_fragments;
              Page.TypeCustomPrompt (lit "Be brief")] Page.initial.

(** A summary and two recipients, the first typed with spaces around it,
    the second added with the Enter key. *)
Definition page_ready_to_share : Page.AppState :=
  Page.after [Page.TypeSummary (lit "Notes");
              Page.TypeRecipient (lit " ann@example.org ");
              Page.ClickAdd;
              Page.TypeRecipient (lit "bob@example.org");
              Page.PressKey (lit "Enter");
              Page.TypeRecipient (lit "cy@example.org")] Page.initial.

End PageSamples.

Export PageSamples.

(* ================================================================= *)
(** * Properties *)

Arguments lit : simpl never.

(* ----------------------------------------------------------------- *)
(** ** Strings *)

Lemma str_eqb_refl (a : jsstring) : str_eqb a a = true.
Proof.
  induction a as [|c a IH]; simpl; [reflexivity|].
  now rewrite N.eqb_refl, IH.
Qed.

Lemma str_eqb_eq (a b : jsstring) : str_eqb a b = true <-> a = b.
Proof.
  split; [|intros ->; apply str_eqb_refl].
  revert b; induction a as [|x a IH]; intros [|y b]; simpl; try discriminate.
  - reflexivity.
  - intros H. apply andb_true_iff in H as [Hx Ha].
    apply N.eqb_eq in Hx. apply IH in Ha. now subst.
Qed.

Lemma is_empty_true (s : jsstring) : is_empty s = true <-> s = [].
Proof. destruct s; simpl; split; congruence. Qed.

Lemma is_empty_false (s : jsstring) : is_empty s = false <-> s <> [].
Proof. destruct s; simpl; split; congruence. Qed.

(** [trim] removes a run of white space at either end and nothing else. *)
Lemma trimStart_decompose (s : jsstring) :
  exists ws, s = ws ++ trimStart s /\ forallb is_white_space ws = true.
Proof.
  induction s as [|c s (ws & Heq & Hws)]; [now exists []|].
  simpl. destruct (is_white_space c) eqn:Hc.
  - exists (c :: ws). simpl. rewrite Hc, Hws. split; [now f_equal|reflexivity].
  - now exists [].
Qed.

Lemma forallb_rev {A} (f : A -> bool) (l : list A) :
  forallb f (rev l) = forallb f l.
Proof.
  induction l as [|x l IH]; [reflexivity|].
  simpl. rewrite forallb_app, IH. simpl.
  now rewrite andb_true_r, andb_comm.
Qed.

Lemma trim_decompose (s : jsstring) :
  exists before after,
    s = before ++ trim s ++ after
    /\ forallb is_white_space before = true
    /\ forallb is_white_space after = true.
Proof.
  destruct (trimStart_decompose s) as (before & Hs & Hbefore).
  destruct (trimStart_decompose (rev (trimStart s))) as (ws & Hr & Hws).
  exists before, (rev ws). split; [|split].
  - rewrite Hs at 1. f_equal. unfold trim, trimEnd.
    rewrite <- rev_app_distr, <- Hr. now rewrite rev_involutive.
  - exact Hbefore.
  - now rewrite forallb_rev.
Qed.

(** A split never returns the empty array. *)
Lemma split_from_nonempty (b : bool) (s : jsstring) : split_from b s <> [].
Proof.
  revert b; induction s as [|c s IH]; intros b; simpl; [discriminate|].
  destruct (is_terminator c).
  - destruct b; [apply IH | discriminate].
  - destruct (split_from false s); discriminate.
Qed.

(** No piece of a split holds a terminator. *)
Lemma split_from_no_terminator (b : bool) (s : jsstring) :
  Forall (fun piece => forallb (fun c => negb (is_terminator c)) piece = true)
         (split_from b s).
Proof.
  revert b; induction s as [|c s IH]; intros b; simpl.
  - constructor; [reflexivity | constructor].
  - destruct (is_terminator c) eqn:Hc.
    + destruct b; [apply IH | constructor; [reflexivity | apply IH]].
    + specialize (IH false).
      destruct (split_from false s) as [|piece pieces]; inversion IH; subst.
      * constructor; [simpl; now rewrite Hc | constructor].
      * constructor; [simpl; now rewrite Hc | assumption].
Qed.

(** Putting the separator runs back between the pieces gives the string
    again: the pieces are consecutive stretches of the transcript, in its
    order. *)
Lemma split_from_interleave (s : jsstring) :
  (exists seps,
     S (List.length seps) = List.length (split_from false s)
     /\ Forall (fun sep => sep <> []
                           /\ forallb is_terminator sep = true) seps
     /\ interleave (split_from false s) seps = s)
  /\ (exists run seps,
        S (List.length seps) = List.length (split_from true s)
        /\ forallb is_terminator run = true
        /\ Forall (fun sep => sep <> []
                              /\ forallb is_terminator sep = true) seps
        /\ run ++ interleave (split_from true s) seps = s).
Proof.
  induction s as [|c s [IHf IHt]]; simpl.
  - split; [exists [] | exists [], []]; simpl; repeat split; constructor.
  - destruct (is_terminator c) eqn:Hc.
    + destruct IHt as (run & seps & Hlen & Hrun & Hseps & Heq). split.
      * exists ((c :: run) :: seps). simpl. repeat split.
        -- now rewrite Hlen.
        -- constructor; [split; [discriminate | simpl; now rewrite Hc, Hrun]
                        | assumption].
        -- now rewrite Heq.
      * exists (c :: run), seps. simpl. repeat split; try assumption.
        -- now rewrite Hc, Hrun.
        -- now rewrite Heq.
    + destruct IHf as (seps & Hlen & Hseps & Heq).
      assert (Hshape : exists piece pieces,
                 split_from false s = piece :: pieces).
      { destruct (split_from false s) as [|p ps] eqn:Hs.
        - now apply split_from_nonempty in Hs.
        - now exists p, ps. }
      destruct Hshape as (piece & pieces & Hs). rewrite Hs in *.
      assert (Hcons : interleave ((c :: piece) :: pieces) seps = c :: s).
      { destruct seps; simpl in *; now rewrite Heq. }
      split.
      * exists seps. repeat split; assumption.
      * exists [], seps. simpl. repeat split; assumption.
Qed.

Lemma occurs_in_order_later (fs : list jsstring) (skipped t : jsstring) :
  occurs_in_order fs t -> occurs_in_order fs (skipped ++ t).
Proof.
  destruct fs as [|f fs]; [trivial|].
  intros (before & after & -> & H).
  exists (skipped ++ before), after. now rewrite <- app_assoc.
Qed.

Lemma occurs_in_order_firstn (n : nat) (fs : list jsstring) (t : jsstring) :
  occurs_in_order fs t -> occurs_in_order (firstn n fs) t.
Proof.
  revert fs t; induction n as [|n IH]; intros [|f fs] t; simpl; trivial.
  intros (before & after & -> & H). exists before, after. auto.
Qed.

Lemma occurs_in_order_interleave (keep : jsstring -> bool)
    (pieces seps : list jsstring) :
  List.length pieces <= S (List.length seps) ->
  occurs_in_order (filter keep pieces) (interleave pieces seps).
Proof.
  revert seps; induction pieces as [|piece pieces IH]; intros seps Hlen;
    [exact I|].
  destruct seps as [|sep seps].
  - destruct pieces; [|simpl in Hlen; lia].
    simpl. destruct (keep piece); [|exact I].
    exists [], []. now rewrite app_nil_r.
  - assert (Hrest : occurs_in_order (filter keep pieces)
                      (sep ++ interleave pieces seps)).
    { apply occurs_in_order_later, IH. simpl in Hlen. lia. }
    cbn [interleave filter]. destruct (keep piece).
    + exists [], (sep ++ interleave pieces seps). now split.
    + now apply occurs_in_order_later.
Qed.

(** The fragments kept by a filter lie in the transcript in the order of the
    split. *)
Lemma split_sentences_in_order (keep : jsstring -> bool) (s : jsstring) :
  occurs_in_order (filter keep (split_sentences s)) s.
Proof.
  destruct (split_from_interleave s) as [(seps & Hlen & _ & Heq) _].
  pose proof (@occurs_in_order_interleave keep (split_from false s) seps)
    as H.
  rewrite Heq in H. apply H. rewrite <- Hlen. apply Nat.le_refl.
Qed.

Lemma lines_single (s : jsstring) : ~ In 10%N s -> lines s = [s].
Proof.
  induction s as [|c s IH]; intros H; simpl; [reflexivity|].
  destruct (N.eqb_spec c 10) as [-> | _]; [exfalso; apply H; now left|].
  rewrite IH; [reflexivity|]. intros Hin. apply H. now right.
Qed.

Lemma lines_app (s rest : jsstring) :
  ~ In 10%N s -> lines (s ++ nl ++ rest) = s :: lines rest.
Proof.
  induction s as [|c s IH]; intros H; simpl; [reflexivity|].
  destruct (N.eqb_spec c 10) as [-> | _]; [exfalso; apply H; now left|].
  simpl in IH. rewrite IH; [reflexivity|]. intros Hin. apply H. now right.
Qed.

(** Entries without a line break, joined by line breaks, are the lines of
    the result. *)
Lemma lines_join (xs : list jsstring) :
  xs <> [] -> Forall (fun x => ~ In 10%N x) xs -> lines (join nl xs) = xs.
Proof.
  induction xs as [|x xs IH]; intros Hne Hall; [congruence|].
  inversion Hall as [|? ? Hx Hxs]; subst.
  destruct xs as [|y ys].
  - simpl. now apply lines_single.
  - change (join nl (x :: y :: ys)) with (x ++ nl ++ join nl (y :: ys)).
    rewrite lines_app by assumption. rewrite IH; [reflexivity | discriminate
                                                  | assumption].
Qed.

(* ----------------------------------------------------------------- *)
(** ** The fallback summarizer *)

Lemma sentences_long_enough (transcript f : jsstring) :
  In f (sentences transcript) <->
  In f (split_sentences transcript) /\ 10 < List.length (trim f).
Proof.
  unfold sentences. rewrite filter_In. unfold long_enough.
  now rewrite Nat.ltb_lt.
Qed.

Lemma firstn_short {A} (n : nat) (l : list A) :
  List.length l <= n -> firstn n l = l.
Proof. intros H. now apply firstn_all2. Qed.

Lemma generateSimpleSummary_absent (transcript : jsstring) (customPrompt : jsval) :
  truthy customPrompt = false ->
  generateSimpleSummary transcript customPrompt
  = Ret (lit "Summary:" ++ nl ++ join nl (keyPoints transcript)).
Proof. intros H. unfold generateSimpleSummary. now rewrite H. Qed.

Lemma generateSimpleSummary_prompt (transcript prompt : jsstring) :
  prompt <> [] ->
  generateSimpleSummary transcript (JStr prompt)
  = Ret (lit "Custom Instructions: " ++ prompt ++ nl ++ nl
         ++ lit "Summary:" ++ nl ++ join nl (keyPoints transcript)).
Proof.
  intros H. unfold generateSimpleSummary. simpl.
  destruct prompt; [congruence | reflexivity].
Qed.

(** C2. When the split of the transcript has at least five fragments whose
    trimmed length exceeds 10, the fallback summary is the header line
    [Summary:] followed by exactly five bulleted entries separated by line
    breaks: the first five such fragments, in the order in which they lie
    in the transcript, each as the bullet marker followed by the trimmed
    fragment.  With a custom prompt the same block follows the instructions
    block. *)
Theorem fallback_five_bullets (transcript : jsstring) (customPrompt : jsval) :
  5 <= List.length
         (filter (fun f => 10 <? List.length (trim f))
                 (split_sentences transcript)) ->
  exists f1 f2 f3 f4 f5 rest,
    filter (fun f => 10 <? List.length (trim f)) (split_sentences transcript)
    = f1 :: f2 :: f3 :: f4 :: f5 :: rest
    /\ (exists t0 t1 t2 t3 t4 t5,
          transcript
          = t0 ++ f1 ++ t1 ++ f2 ++ t2 ++ f3 ++ t3 ++ f4 ++ t4 ++ f5 ++ t5)
    /\ List.length (keyPoints transcript) = 5
    /\ (truthy customPrompt = false ->
        generateSimpleSummary transcript customPrompt
        = Ret (lit "Summary:" ++ nl
               ++ (bullet ++ trim f1) ++ nl
               ++ (bullet ++ trim f2) ++ nl
               ++ (bullet ++ trim f3) ++ nl
               ++ (bullet ++ trim f4) ++ nl
               ++ (bullet ++ trim f5)))
    /\ (forall prompt,
          customPrompt = JStr prompt -> prompt <> [] ->
          generateSimpleSummary transcript customPrompt
          = Ret (lit "Custom Instructions: " ++ prompt ++ nl ++ nl
                 ++ lit "Summary:" ++ nl
                 ++ (bullet ++ trim f1) ++ nl
                 ++ (bullet ++ trim f2) ++ nl
                 ++ (bullet ++ trim f3) ++ nl
                 ++ (bullet ++ trim f4) ++ nl
                 ++ (bullet ++ trim f5))).
Proof.
  intros Hlen.
  assert (Hkp : forall f1 f2 f3 f4 f5 rest,
             sentences transcript = f1 :: f2 :: f3 :: f4 :: f5 :: rest ->
             keyPoints transcript
             = [bullet ++ trim f1; bullet ++ trim f2; bullet ++ trim f3;
                bullet ++ trim f4; bullet ++ trim f5]).
  { intros * Hs. unfold keyPoints. now rewrite Hs. }
  change (filter _ (split_sentences transcript)) with (sentences transcript)
    in *.
  destruct (sentences transcript)
    as [|f1 [|f2 [|f3 [|f4 [|f5 rest]]]]] eqn:Hs; simpl in Hlen; try lia.
  exists f1, f2, f3, f4, f5, rest.
  specialize (Hkp _ _ _ _ _ _ eq_refl).
  split; [reflexivity|]. split; [|split; [now rewrite Hkp|split]].
  - pose proof (occurs_in_order_firstn 5 _ _
                  (split_sentences_in_order long_enough transcript)) as Hord.
    fold (sentences transcript) in Hord. rewrite Hs in Hord.
    cbn [firstn occurs_in_order] in Hord.
    destruct Hord as (t0 & a1 & -> & t1 & a2 & -> & t2 & a3 & ->
                      & t3 & a4 & -> & t4 & t5 & -> & _).
    now exists t0, t1, t2, t3, t4, t5.
  - intros Hcp. rewrite generateSimpleSummary_absent by assumption.
    now rewrite Hkp.
  - intros prompt -> Hne. rewrite generateSimpleSummary_prompt by assumption.
    now rewrite Hkp.
Qed.

Lemma fallback_five_bullets_witness :
  exists f1 f2 f3 f4 f5 rest,
    sentences five_fragments = f1 :: f2 :: f3 :: f4 :: f5 :: rest
    /\ generateSimpleSummary five_fragments JUndefined
       = Ret (lit "Summary:" ++ nl
              ++ (bullet ++ trim f1) ++ nl
              ++ (bullet ++ trim f2) ++ nl
              ++ (bullet ++ trim f3) ++ nl
              ++ (bullet ++ trim f4) ++ nl
              ++ (bullet ++ trim f5)).
Proof.
  destruct (@fallback_five_bullets five_fragments JUndefined)
    as (f1 & f2 & f3 & f4 & f5 & rest & Hs & _ & _ & Habs & _).
  - vm_compute. lia.
  - exists f1, f2, f3, f4, f5, rest. split; [exact Hs | now apply Habs].
Defined.

(** C3. When fewer than five fragments of the split have a trimmed length
    above 10, every fragment of trimmed length at most 10 is dropped and the
    summary holds one bulleted entry per remaining fragment, between zero and
    four of them. *)
Theorem fallback_fewer_than_five (transcript : jsstring) (customPrompt : jsval) :
  List.length
    (filter (fun f => 10 <? List.length (trim f))
            (split_sentences transcript)) < 5 ->
  let qualifying :=
    filter (fun f => 10 <? List.length (trim f)) (split_sentences transcript) in
  keyPoints transcript = map (fun f => bullet ++ trim f) qualifying
  /\ List.length (keyPoints transcript) = List.length qualifying
  /\ List.length (keyPoints transcript) <= 4
  /\ (forall f, In f (split_sentences transcript) ->
                List.length (trim f) <= 10 -> ~ In f qualifying)
  /\ (forall f, In f qualifying ->
                In f (split_sentences transcript)
                /\ 10 < List.length (trim f))
  /\ (truthy customPrompt = false ->
      generateSimpleSummary transcript customPrompt
      = Ret (lit "Summary:" ++ nl
             ++ join nl (map (fun f => bullet ++ trim f) qualifying)))
  /\ (forall prompt,
        customPrompt = JStr prompt -> prompt <> [] ->
        generateSimpleSummary transcript customPrompt
        = Ret (lit "Custom Instructions: " ++ prompt ++ nl ++ nl
               ++ lit "Summary:" ++ nl
               ++ join nl (map (fun f => bullet ++ trim f) qualifying))).
Proof.
  intros Hlen qualifying.
  change qualifying with (sentences transcript) in *.
  change (filter _ (split_sentences transcript)) with (sentences transcript)
    in Hlen.
  assert (Hkp : keyPoints transcript
                = map (fun f => bullet ++ trim f) (sentences transcript)).
  { unfold keyPoints. rewrite firstn_short by lia. reflexivity. }
  split; [exact Hkp|]. rewrite Hkp, length_map.
  split; [reflexivity|]. split; [lia|]. split; [|split; [|split]].
  - intros f _ Hshort Hin. apply sentences_long_enough in Hin. lia.
  - intros f Hin. now apply sentences_long_enough.
  - intros Hcp. rewrite generateSimpleSummary_absent by assumption.
    now rewrite Hkp.
  - intros prompt -> Hne. rewrite generateSimpleSummary_prompt by assumption.
    now rewrite Hkp.
Qed.

Lemma fallback_fewer_than_five_witness :
  keyPoints two_fragments
  = [bullet ++ lit "Budget review went fine";
     bullet ++ lit "Next meeting is on Monday"]
  /\ generateSimpleSummary two_fragments JUndefined
     = Ret (lit "Summary:" ++ nl
            ++ bullet ++ lit "Budget review went fine" ++ nl
            ++ bullet ++ lit "Next meeting is on Monday").
Proof.
  destruct (@fallback_fewer_than_five two_fragments JUndefined)
    as (Hkp & _ & _ & _ & _ & Habs & _).
  - vm_compute. lia.
  - split.
    + rewrite Hkp. vm_compute. reflexivity.
    + rewrite (Habs eq_refl). vm_compute. reflexivity.
Defined.

(** When no trimmed fragment holds a line break, the entries of the
    summary are its text lines: the header line, then one line per key
    point.  A fragment that spans several lines keeps its line breaks, and its
    entry then spans as many lines. *)
Lemma fallback_text_lines (transcript : jsstring) (customPrompt : jsval) :
  truthy customPrompt = false ->
  keyPoints transcript <> [] ->
  Forall (fun f => ~ In 10%N (trim f)) (firstn 5 (sentences transcript)) ->
  exists summary,
    generateSimpleSummary transcript customPrompt = Ret summary
    /\ lines summary = lit "Summary:" :: keyPoints transcript.
Proof.
  intros Hcp Hne Hall. eexists. split.
  - now apply generateSimpleSummary_absent.
  - rewrite lines_app.
    + rewrite lines_join; [reflexivity | exact Hne|].
      unfold keyPoints. apply Forall_map.
      eapply Forall_impl; [|exact Hall].
      intros f Hf Hin. apply in_app_or in Hin as [Hin | Hin]; [|auto].
      vm_compute in Hin. intuition discriminate.
    + vm_compute. intuition discriminate.
Qed.

(** C4. With a non-empty custom prompt the fallback output is
    [Custom Instructions: ] followed by the prompt, two line breaks and the
    [Summary:] block; with no custom prompt (absent or empty) the output is
    the [Summary:] block itself. *)
Theorem fallback_custom_prompt (transcript prompt : jsstring) :
  prompt <> [] ->
  let block := lit "Summary:" ++ nl ++ join nl (keyPoints transcript) in
  generateSimpleSummary transcript (JStr prompt)
  = Ret (lit "Custom Instructions: " ++ prompt ++ nl ++ nl ++ block)
  /\ generateSimpleSummary transcript JUndefined = Ret block
  /\ generateSimpleSummary transcript (JStr []) = Ret block.
Proof.
  intros Hne block. split; [|split].
  - now apply generateSimpleSummary_prompt.
  - reflexivity.
  - reflexivity.
Qed.

Lemma fallback_custom_prompt_witness :
  generateSimpleSummary two_fragments (JStr (lit "Be brief"))
  = Ret (lit "Custom Instructions: Be brief" ++ nl ++ nl
         ++ lit "Summary:" ++ nl
         ++ bullet ++ lit "Budget review went fine" ++ nl
         ++ bullet ++ lit "Next meeting is on Monday").
Proof.
  destruct (@fallback_custom_prompt two_fragments (lit "Be brief")) as (H & _).
  - discriminate.
  - rewrite H. vm_compute. reflexivity.
Defined.

(* ----------------------------------------------------------------- *)
(** ** Traces *)

Lemma sends_app (a b : list Event) : sends (a ++ b) = sends a ++ sends b.
Proof.
  induction a as [|ev a IH]; simpl; [reflexivity|].
  destruct ev; simpl; now rewrite ?IH.
Qed.

Lemma posts_app (a b : list Event) : posts (a ++ b) = posts a ++ posts b.
Proof.
  induction a as [|ev a IH]; simpl; [reflexivity|].
  destruct ev; simpl; now rewrite ?IH.
Qed.

Ltac unfold_m :=
  unfold try_catch, bind, ret, throw, lift, console_log, console_error,
    emit, sgMail_setApiKey in *.

Ltac tidy_sends := simpl; rewrite ?sends_app; simpl; rewrite ?app_nil_r.

Section Handlers.

Variable World : Type.
Variable E : Env World.

Implicit Types (s : State World) (body : ShareBody) (req : SummarizeReq).

(* ----------------------------------------------------------------- *)
(** ** Share: validation *)

Lemma api_share_invalid body s :
  truthy (share_summary body) = false
  \/ truthy (share_recipients body) = false
  \/ isArray (share_recipients body) = false ->
  api_share E body s
  = (Ret (error_response 400 (lit "Invalid request data")), s).
Proof.
  intros H. unfold api_share. unfold_m.
  assert (Hc : negb (truthy (share_summary body))
               || negb (truthy (share_recipients body))
               || negb (isArray (share_recipients body)) = true).
  { destruct H as [H | [H | H]]; rewrite H; simpl;
      now rewrite ?orb_true_r. }
  now rewrite Hc.
Qed.

Lemma api_share_valid body s :
  truthy (share_summary body) = true ->
  isArray (share_recipients body) = true ->
  api_share E body s
  = match sendEmail E (array_elems (share_recipients body))
            (share_subject body) (share_summary body) (share_sender body) s
    with
    | (Ret _, s') =>
        (Ret {| status := 200;
                json := JObj [(lit "success", JBool true);
                              (lit "message",
                               JStr (lit "Summary shared successfully"))] |},
         s')
    | (Throw e, s') =>
        (Ret (error_response 500 (lit "Failed to send email")),
         {| world := world s';
            trace := trace s' ++ [ConsoleError (lit "Email error:") e] |})
    end.
Proof.
  intros Hs Ha. unfold api_share. unfold_m.
  assert (Ht : truthy (share_recipients body) = true).
  { destruct (share_recipients body); simpl in *; congruence. }
  rewrite Hs, Ht, Ha. simpl.
  destruct (sendEmail _ _ _ _ _ s) as [[b | e] s']; reflexivity.
Qed.

Lemma sendEmail_unconfigured recipients subject summary sender s :
  configured (getenv E (lit "SENDGRID_API_KEY")) = false ->
  exists evs,
    sendEmail E recipients subject summary sender s
    = (Ret true, {| world := world s; trace := trace s ++ evs |})
    /\ sends evs = [] /\ posts evs = [] /\ In (SetTimeout 1000) evs.
Proof.
  intros Hk. unfold sendEmail. unfold_m. rewrite Hk. simpl.
  eexists. split.
  - rewrite <- !app_assoc. reflexivity.
  - simpl. repeat split; auto 10.
Qed.

Lemma sendEmail_malformed recipients subject summary sender s :
  configured (getenv E (lit "SENDGRID_API_KEY")) = true ->
  startsWith (lit "SG.") (env_string (getenv E (lit "SENDGRID_API_KEY")))
  = false ->
  exists evs,
    sendEmail E recipients subject summary sender s
    = (Throw (Error (lit "Invalid SendGrid API key format")),
       {| world := world s; trace := trace s ++ evs |})
    /\ Forall (fun ev => match ev with
                         | ConsoleLog _ | ConsoleError _ _ => True
                         | _ => False
                         end) evs
    /\ forall rest,
         ~ In (ConsoleLog (JStr (lit "Email would be sent to:") :: rest)) evs.
Proof.
  intros Hk Hp. unfold sendEmail. unfold_m. rewrite Hk, Hp. simpl.
  eexists. split; [|split].
  - rewrite <- !app_assoc. reflexivity.
  - repeat constructor.
  - intros rest Hin. simpl in Hin.
    repeat (destruct Hin as [Hin | Hin]; [discriminate Hin|]).
    exact Hin.
Qed.


(* ----------------------------------------------------------------- *)
(** ** Share: the delivery loop *)

Lemma send_each_cons recipient rest subject summary sender s :
  send_each E (recipient :: rest) subject summary sender s
  = match to_string summary with
    | None => (Throw TypeError, s)
    | Some shown =>
        let msg := mail_for subject summary sender shown recipient in
        match sg_send E msg (world s) with
        | (Throw e, w) =>
            (Throw e,
             {| world := w; trace := trace s ++ [SgSend msg (Some e)] |})
        | (Ret _, w) =>
            match to_string recipient with
            | None =>
                (Throw TypeError,
                 {| world := w; trace := trace s ++ [SgSend msg None] |})
            | Some shown_recipient =>
                send_each E rest subject summary sender
                  {| world := w;
                     trace := (trace s ++ [SgSend msg None])
                              ++ [ConsoleLog
                                    [JStr (lit "Email sent successfully to: "
                                           ++ shown_recipient)]] |}
            end
        end
    end.
Proof.
  cbn [send_each]. unfold_m. unfold interpolate, sgMail_send.
  destruct (to_string summary) as [shown|]; [|reflexivity].
  cbn [world trace].
  destruct (sg_send E _ (world s)) as [[[]|e] w]; [|reflexivity].
  destruct (to_string recipient); reflexivity.
Qed.

(** The loop calls the transport for a prefix of the recipients, in order,
    and a rejected call is the last one. *)
Lemma send_each_spec rs subject summary sender s :
  exists calls,
    sends (trace (snd (send_each E rs subject summary sender s)))
    = sends (trace s) ++ calls
    /\ List.length calls <= List.length rs
    /\ (forall i msg failure,
          nth_error calls i = Some (msg, failure) ->
          exists recipient shown,
            nth_error rs i = Some recipient
            /\ to_string summary = Some shown
            /\ msg = mail_for subject summary sender shown recipient)
    /\ (forall i msg e,
          nth_error calls i = Some (msg, Some e) ->
          List.length calls = S i
          /\ fst (send_each E rs subject summary sender s) = Throw e)
    /\ (fst (send_each E rs subject summary sender s) = Ret tt ->
        List.length calls = List.length rs)
    /\ ((forall c, In c calls -> snd c = None) ->
        to_string summary <> None ->
        Forall (fun recipient => to_string recipient <> None) rs ->
        fst (send_each E rs subject summary sender s) = Ret tt).
Proof.
  revert s. induction rs as [|recipient rest IH]; intros s.
  - exists []. simpl. rewrite app_nil_r. repeat split; auto.
    + intros [|i] msg failure H; discriminate H.
    + destruct i; discriminate H.
    + destruct i; discriminate H.
  - rewrite send_each_cons.
    destruct (to_string summary) as [shown|] eqn:Hsum.
    2:{ exists []. simpl. rewrite app_nil_r. repeat split; auto; try lia.
        - intros [|i] msg failure H; discriminate H.
        - destruct i; discriminate H.
        - destruct i; discriminate H.
        - discriminate.
        - intros _ H. congruence. }
    cbv zeta.
    set (msg0 := mail_for subject summary sender shown recipient).
    destruct (sg_send E msg0 (world s)) as [[[]|e] w].
    2:{ exists [(msg0, Some e)]. tidy_sends. repeat split; auto; try lia.
        - intros [|[|i]] msg failure H; simpl in H; try discriminate H.
          injection H as <- <-. now exists recipient, shown.
        - destruct i as [|[|i]]; simpl in H; try discriminate H. reflexivity.
        - destruct i as [|[|i]]; simpl in H; try discriminate H. congruence.
        - discriminate.
        - intros H. specialize (H _ (or_introl eq_refl)). discriminate H. }
    destruct (to_string recipient) as [shown_recipient|] eqn:Hrec.
    2:{ exists [(msg0, None)]. tidy_sends. repeat split; auto; try lia.
        - intros [|[|i]] msg failure H; simpl in H; try discriminate H.
          injection H as <- <-. now exists recipient, shown.
        - destruct i as [|[|i]]; simpl in H; discriminate H.
        - destruct i as [|[|i]]; simpl in H; discriminate H.
        - discriminate.
        - intros _ _ H. inversion H; subst. congruence. }
    match goal with
    | |- context [send_each E rest subject summary sender ?st] =>
        destruct (IH st) as (calls & Htr & Hlen & Hmsg & Hfail & Hok & Hall)
    end.
    exists ((msg0, None) :: calls). rewrite Htr. tidy_sends.
    rewrite <- app_assoc. simpl.
    split; [reflexivity|]. split; [lia|]. split; [|split; [|split]].
    + intros [|i] msg failure H; simpl in H.
      * injection H as <- <-. now exists recipient, shown.
      * apply Hmsg in H. exact H.
    + intros [|i] msg e H; simpl in H; [discriminate H|].
      apply Hfail in H as [H1 H2]. split; [now rewrite H1 | exact H2].
    + intros H. now rewrite (Hok H).
    + intros Hnone Hs Hrs. apply Hall.
      * intros c Hc. apply Hnone. now right.
      * assumption.
      * now inversion Hrs.
Qed.

Definition share_success : Response :=
  {| status := 200;
     json := JObj [(lit "success", JBool true);
                   (lit "message", JStr (lit "Summary shared successfully"))]
  |}.

Lemma console_only_sends (evs : list Event) :
  Forall (fun ev => match ev with
                    | ConsoleLog _ | ConsoleError _ _ => True
                    | _ => False
                    end) evs ->
  sends evs = [].
Proof.
  induction 1 as [|ev evs Hev _ IH]; [reflexivity|].
  destruct ev; simpl; solve [exact IH | contradiction].
Qed.

(** A valid request under a malformed credential: the server error, the
    world untouched, console lines only. *)
Lemma api_share_malformed body s :
  configured (getenv E (lit "SENDGRID_API_KEY")) = true ->
  startsWith (lit "SG.") (env_string (getenv E (lit "SENDGRID_API_KEY")))
  = false ->
  truthy (share_summary body) = true ->
  isArray (share_recipients body) = true ->
  exists evs,
    api_share E body s
    = (Ret (error_response 500 (lit "Failed to send email")),
       {| world := world s; trace := trace s ++ evs |})
    /\ sends evs = []
    /\ Forall (fun ev => match ev with
                         | ConsoleLog _ | ConsoleError _ _ => True
                         | _ => False
                         end) evs
    /\ forall rest,
         ~ In (ConsoleLog (JStr (lit "Email would be sent to:") :: rest)) evs.
Proof.
  intros Hk Hp Hsum Harr.
  rewrite api_share_valid by assumption.
  destruct (sendEmail_malformed (array_elems (share_recipients body))
              (share_subject body) (share_summary body) (share_sender body)
              s Hk Hp) as (evs & -> & Hcons & Hline).
  cbn [world trace].
  exists (evs ++ [ConsoleError (lit "Email error:")
                    (Error (lit "Invalid SendGrid API key format"))]).
  assert (Hall : Forall (fun ev => match ev with
                                   | ConsoleLog _ | ConsoleError _ _ => True
                                   | _ => False
                                   end)
                   (evs ++ [ConsoleError (lit "Email error:")
                              (Error (lit "Invalid SendGrid API key format"))])).
  { apply Forall_app. split; [exact Hcons | repeat constructor]. }
  split; [now rewrite <- app_assoc|]. split; [now apply console_only_sends|].
  split; [exact Hall|].
  intros rest Hin. apply in_app_or in Hin as [Hin | Hin].
  - exact (Hline rest Hin).
  - simpl in Hin. destruct Hin as [Hin | Hin]; [discriminate Hin | exact Hin].
Qed.

Lemma startsWith_configured (key : jsstring) :
  startsWith (lit "SG.") key = true -> configured (Some key) = true.
Proof. destruct key; [discriminate | reflexivity]. Qed.

(** What [sendEmail] logs and sets up before its loop. *)
Definition preamble (key : jsstring) : list Event :=
  [ConsoleLog [JStr (lit "Debug: SENDGRID_API_KEY =");
               key_preview (Some key) (lit "NOT FOUND")];
   ConsoleLog [JStr (lit "Debug: All environment variables:");
               JArr (map JStr (filter (includes (lit "SENDGRID"))
                                      (map fst (process_env E))))];
   SetApiKey key].

Lemma sendEmail_wellformed recipients subject summary sender key s :
  getenv E (lit "SENDGRID_API_KEY") = Some key ->
  startsWith (lit "SG.") key = true ->
  sendEmail E recipients subject summary sender s
  = match send_each E recipients subject summary
            (sender_or_default sender)
            {| world := sg_setApiKey E key (world s);
               trace := trace s ++ preamble key |}
    with
    | (Ret _, s') => (Ret true, s')
    | (Throw e, s') =>
        (Throw e,
         {| world := world s';
            trace := trace s'
                     ++ [ConsoleError (lit "Email sending failed:") e] |})
    end.
Proof.
  intros Hk Hp. unfold sendEmail. unfold_m. rewrite Hk.
  rewrite (startsWith_configured _ Hp). cbn [negb env_string].
  rewrite Hp. cbn [negb world trace].
  rewrite <- !app_assoc. cbn [app]. fold (preamble key).
  destruct (send_each E recipients subject summary
              (sender_or_default sender) _) as [[[]|e] s']; reflexivity.
Qed.

(** C8. With a delivery credential configured and a valid request, the
    delivery calls go to the recipients one by one in list order; a call
    that raises is the last one made, and the caller is then answered with
    the single server error [Failed to send email].  When the credential is
    well formed and no call raises, every recipient got one call and the
    answer is the success payload. *)
Theorem share_sequential_abort body (rs : list jsval) (key : jsstring) s :
  getenv E (lit "SENDGRID_API_KEY") = Some key ->
  key <> [] ->
  truthy (share_summary body) = true ->
  share_recipients body = JArr rs ->
  exists calls : list (Msg * option Err),
    sends (trace (snd (api_share E body s))) = sends (trace s) ++ calls
    /\ List.length calls <= List.length rs
    /\ (forall i msg failure,
          nth_error calls i = Some (msg, failure) ->
          exists recipient shown,
            nth_error rs i = Some recipient
            /\ to_string (share_summary body) = Some shown
            /\ msg = {| msg_to := recipient;
                        msg_from := sender_or_default (share_sender body);
                        msg_subject := share_subject body;
                        msg_text := share_summary body;
                        msg_html := html_body shown |})
    /\ (forall i msg e,
          nth_error calls i = Some (msg, Some e) ->
          List.length calls = S i
          /\ fst (api_share E body s)
             = Ret (error_response 500 (lit "Failed to send email")))
    /\ (startsWith (lit "SG.") key = true ->
        (forall c, In c calls -> snd c = None) ->
        to_string (share_summary body) <> None ->
        Forall (fun recipient => to_string recipient <> None) rs ->
        List.length calls = List.length rs
        /\ fst (api_share E body s) = Ret share_success).
Proof.
  intros Hk Hne Hsum Hrs.
  destruct (startsWith (lit "SG.") key) eqn:Hp.
  2:{ destruct (@api_share_malformed body s) as (evs & -> & Hnone & _).
      - rewrite Hk. destruct key; [congruence | reflexivity].
      - now rewrite Hk.
      - exact Hsum.
      - now rewrite Hrs.
      - exists []. cbn [snd trace]. rewrite sends_app, Hnone.
        split; [reflexivity|]. split; [simpl; lia|]. split; [|split].
        + intros [|i] msg failure H; discriminate H.
        + intros [|i] msg e H; discriminate H.
        + discriminate. }
  rewrite api_share_valid by (rewrite ?Hrs; auto).
  rewrite Hrs. cbn [array_elems].
  rewrite (sendEmail_wellformed rs (share_subject body) (share_summary body)
             (share_sender body) s Hk Hp).
  assert (Hpre : sends (preamble key) = []) by reflexivity.
  match goal with
  | |- context [send_each E rs ?subj ?summ ?sndr ?st] =>
      destruct (send_each_spec rs subj summ sndr st)
        as (calls & Htr & Hlen & Hmsg & Hfail & Hok & Hall);
      destruct (send_each E rs subj summ sndr st) as [[[]|e] s'] eqn:Hrun
  end; cbn [fst snd trace] in *;
    rewrite sends_app, Hpre, app_nil_r in Htr.
  - exists calls. split; [exact Htr|]. split; [exact Hlen|].
    split; [exact Hmsg|]. split.
    + intros i msg e H. apply Hfail in H as [_ H]. discriminate H.
    + intros _ _ _ _. split; [now apply Hok | reflexivity].
  - exists calls. tidy_sends. rewrite ?sends_app. cbn [sends].
    rewrite ?app_nil_r.
    split; [exact Htr|]. split; [exact Hlen|].
    split; [exact Hmsg|]. split.
    + intros i msg e' H. apply Hfail in H as [H _]. now split.
    + intros _ Hnone Hs Hall'. specialize (Hall Hnone Hs Hall').
      discriminate Hall.
Qed.

(** C1 (amended). A Share request whose recipients value is not a list is
    answered with the client error [Invalid request data] and nothing is
    done: no delivery call, no event at all.  A request whose recipients
    value is the empty list issues no delivery call either; it is answered
    [Invalid request data] only when its summary is missing or empty, and
    otherwise passes validation and ends according to the credential:
    success when none is configured or when it is well formed, the server
    error when it is malformed. *)
Theorem share_rejects_non_list body s :
  share_recipients body = JArr [] \/ isArray (share_recipients body) = false ->
  sends (trace (snd (api_share E body s))) = sends (trace s)
  /\ (isArray (share_recipients body) = false
      \/ truthy (share_summary body) = false ->
      api_share E body s
      = (Ret (error_response 400 (lit "Invalid request data")), s))
  /\ (share_recipients body = JArr [] ->
      truthy (share_summary body) = true ->
      let sendgridApiKey := getenv E (lit "SENDGRID_API_KEY") in
      (configured sendgridApiKey = false
       \/ startsWith (lit "SG.") (env_string sendgridApiKey) = true ->
       fst (api_share E body s) = Ret share_success)
      /\ (configured sendgridApiKey = true ->
          startsWith (lit "SG.") (env_string sendgridApiKey) = false ->
          fst (api_share E body s)
          = Ret (error_response 500 (lit "Failed to send email")))).
Proof.
  intros Hcase.
  assert (Hinvalid : isArray (share_recipients body) = false
                     \/ truthy (share_summary body) = false ->
                     api_share E body s
                     = (Ret (error_response 400 (lit "Invalid request data")),
                        s)).
  { intros [H | H]; apply api_share_invalid; auto. }
  split; [|split; [exact Hinvalid|]].
  - destruct Hcase as [Hempty | Hnot];
      [|now rewrite Hinvalid by (now left)].
    destruct (truthy (share_summary body)) eqn:Hsum;
      [|now rewrite Hinvalid by (now right)].
    rewrite api_share_valid by (rewrite ?Hempty; auto).
    rewrite Hempty. cbn [array_elems].
    destruct (configured (getenv E (lit "SENDGRID_API_KEY"))) eqn:Hk.
    + destruct (startsWith (lit "SG.")
                  (env_string (getenv E (lit "SENDGRID_API_KEY")))) eqn:Hp.
      * destruct (getenv E (lit "SENDGRID_API_KEY")) as [key|] eqn:Hget;
          [|discriminate Hk].
        rewrite (sendEmail_wellformed [] (share_subject body)
                   (share_summary body) (share_sender body) s Hget Hp).
        cbn [send_each]. unfold_m. cbn [snd trace].
        now rewrite sends_app, app_nil_r.
      * destruct (sendEmail_malformed [] (share_subject body)
                    (share_summary body) (share_sender body) s Hk Hp)
          as (evs & -> & Hcons & _).
        cbn [snd trace world]. rewrite !sends_app. cbn [sends].
        rewrite app_nil_r.
        now rewrite (console_only_sends Hcons), app_nil_r.
    + destruct (sendEmail_unconfigured [] (share_subject body)
                  (share_summary body) (share_sender body) s Hk)
        as (evs & -> & Hnone & _).
      cbn [snd trace]. now rewrite sends_app, Hnone, app_nil_r.
  - intros Hempty Hsum sendgridApiKey. subst sendgridApiKey.
    rewrite api_share_valid by (rewrite ?Hempty; auto).
    rewrite Hempty. cbn [array_elems]. split.
    + intros [Hk | Hp].
      * destruct (sendEmail_unconfigured [] (share_subject body)
                    (share_summary body) (share_sender body) s Hk)
          as (evs & -> & _). reflexivity.
      * destruct (getenv E (lit "SENDGRID_API_KEY")) as [key|] eqn:Hget;
          [|discriminate Hp].
        now rewrite (sendEmail_wellformed [] (share_subject body)
                       (share_summary body) (share_sender body) s Hget Hp).
    + intros Hk Hp.
      destruct (sendEmail_malformed [] (share_subject body)
                  (share_summary body) (share_sender body) s Hk Hp)
        as (evs & -> & _). reflexivity.
Qed.

(** C9. With a delivery credential that is set but does not start with
    [SG.], every Share request is answered with a failure: a request that
    passes validation gets the server error [Failed to send email], any other
    the client error.  No delivery call is made, the world is left as it
    was, and the only events are console lines, none of them the first line
    of the logging fallback. *)
Theorem share_malformed_credential body (key : jsstring) s :
  getenv E (lit "SENDGRID_API_KEY") = Some key ->
  key <> [] ->
  startsWith (lit "SG.") key = false ->
  (if truthy (share_summary body) && isArray (share_recipients body)
   then fst (api_share E body s)
        = Ret (error_response 500 (lit "Failed to send email"))
   else fst (api_share E body s)
        = Ret (error_response 400 (lit "Invalid request data")))
  /\ fst (api_share E body s) <> Ret share_success
  /\ world (snd (api_share E body s)) = world s
  /\ exists evs,
       trace (snd (api_share E body s)) = trace s ++ evs
       /\ sends evs = []
       /\ Forall (fun ev => match ev with
                            | ConsoleLog _ | ConsoleError _ _ => True
                            | _ => False
                            end) evs
       /\ forall rest,
            ~ In (ConsoleLog (JStr (lit "Email would be sent to:") :: rest))
                 evs.
Proof.
  intros Hget Hne Hp.
  assert (Hk : configured (getenv E (lit "SENDGRID_API_KEY")) = true).
  { rewrite Hget. destruct key; [congruence | reflexivity]. }
  assert (Hp' : startsWith (lit "SG.")
                  (env_string (getenv E (lit "SENDGRID_API_KEY"))) = false).
  { now rewrite Hget. }
  destruct (truthy (share_summary body)) eqn:Hsum;
    [destruct (isArray (share_recipients body)) eqn:Harr|]; cbn [andb].
  - destruct (api_share_malformed body s Hk Hp' Hsum Harr)
      as (evs & -> & Hnone & Hcons & Hline).
    cbn [fst snd world trace].
    split; [reflexivity|]. split; [discriminate|]. split; [reflexivity|].
    now exists evs.
  - rewrite api_share_invalid by auto. cbn [fst snd].
    split; [reflexivity|]. split; [discriminate|]. split; [reflexivity|].
    exists []. rewrite app_nil_r. repeat split; auto.
  - rewrite api_share_invalid by auto. cbn [fst snd].
    split; [reflexivity|]. split; [discriminate|]. split; [reflexivity|].
    exists []. rewrite app_nil_r. repeat split; auto.
Qed.


(* ----------------------------------------------------------------- *)
(** ** Summarize *)

Definition summarize_success (summary : jsval) (text : jsstring) : Response :=
  {| status := 200;
     json := JObj [(lit "success", JBool true);
                   (lit "summary", summary);
                   (lit "originalText", JStr text)] |}.

Lemma trim_nil_inv (text : jsstring) : trim text <> [] -> text <> [].
Proof. intros H ->. now apply H. Qed.

Lemma transcriptText_file req (text : jsstring) :
  req_file req = Some text -> transcriptText req = Some (JStr text).
Proof. intros H. unfold transcriptText. now rewrite H. Qed.

Lemma transcriptText_field req (text : jsstring) :
  req_file req = None -> req_transcript req = JStr text -> text <> [] ->
  transcriptText req = Some (JStr text).
Proof.
  intros Hf Ht Hne. unfold transcriptText. rewrite Hf, Ht. simpl.
  destruct text; [congruence | reflexivity].
Qed.

Lemma api_summarize_missing req s :
  req_file req = None -> truthy (req_transcript req) = false ->
  api_summarize E req s
  = (Ret (error_response 400 (lit "No transcript provided")), s).
Proof.
  intros Hf Ht. unfold api_summarize, transcriptText. unfold_m.
  now rewrite Hf, Ht.
Qed.

Lemma api_summarize_blank req (text : jsstring) s :
  transcriptText req = Some (JStr text) -> trim text = [] ->
  api_summarize E req s
  = (Ret (error_response 400 (lit "Transcript is empty")), s).
Proof.
  intros Ht Hb. unfold api_summarize. unfold_m. now rewrite Ht, Hb.
Qed.

Lemma api_summarize_text req (text : jsstring) s :
  transcriptText req = Some (JStr text) -> trim text <> [] ->
  api_summarize E req s
  = match generateSummary E text (req_customPrompt req) s with
    | (Ret summary, s') => (Ret (summarize_success summary text), s')
    | (Throw e, s') =>
        (Ret (error_response 500 (lit "Failed to generate summary")),
         {| world := world s';
            trace := trace s' ++ [ConsoleError (lit "Summarization error:") e]
         |})
    end.
Proof.
  intros Ht Hb. unfold api_summarize. unfold_m. rewrite Ht.
  apply is_empty_false in Hb. rewrite Hb.
  destruct (generateSummary E text (req_customPrompt req) s) as [[v|e] s'];
    reflexivity.
Qed.

Lemma generateSimpleSummary_total (text : jsstring) (customPrompt : jsval) :
  to_string customPrompt <> None ->
  exists fallback, generateSimpleSummary text customPrompt = Ret fallback.
Proof.
  intros H. unfold generateSimpleSummary, interpolate.
  destruct (truthy customPrompt); [|eauto].
  destruct (to_string customPrompt); [eauto | congruence].
Qed.

Lemma generateSummary_unconfigured (text fallback : jsstring) customPrompt s :
  configured (getenv E (lit "GROQ_API_KEY")) = false ->
  generateSimpleSummary text customPrompt = Ret fallback ->
  generateSummary E text customPrompt s = (Ret (JStr fallback), s).
Proof.
  intros Hk Hf. unfold generateSummary, simple_summary. unfold_m.
  now rewrite Hk, Hf.
Qed.

Lemma generateSummary_primary_throws (text fallback : jsstring) customPrompt
    s e s' :
  configured (getenv E (lit "GROQ_API_KEY")) = true ->
  completion_call E (env_string (getenv E (lit "GROQ_API_KEY"))) text
    customPrompt s = (Throw e, s') ->
  generateSimpleSummary text customPrompt = Ret fallback ->
  generateSummary E text customPrompt s
  = (Ret (JStr fallback),
     {| world := world s';
        trace := trace s' ++ [ConsoleError (lit "AI service error:") e] |}).
Proof.
  intros Hk Hc Hf. unfold generateSummary, simple_summary. unfold_m.
  rewrite Hk. cbn [negb]. now rewrite Hc, Hf.
Qed.

Lemma generateSummary_total (text : jsstring) customPrompt s :
  to_string customPrompt <> None ->
  exists summary s', generateSummary E text customPrompt s = (Ret summary, s').
Proof.
  intros H.
  destruct (generateSimpleSummary_total text customPrompt H)
    as (fallback & Hf).
  destruct (configured (getenv E (lit "GROQ_API_KEY"))) eqn:Hk.
  - destruct (completion_call E (env_string (getenv E (lit "GROQ_API_KEY")))
                text customPrompt s) as [[v|e] s'] eqn:Hc.
    + exists v, s'. unfold generateSummary. unfold_m.
      rewrite Hk. cbn [negb]. now rewrite Hc.
    + eexists _, _.
      eapply generateSummary_primary_throws; [exact Hk | exact Hc | exact Hf].
  - eexists _, _. eapply generateSummary_unconfigured; [exact Hk | exact Hf].
Qed.

(** C6 (amended). A Summarize request with no uploaded file whose transcript
    field is absent or falsy, the empty string included, is answered with
    the client error [No transcript provided].  A request whose transcript,
    taken from the uploaded file or else from a non-empty text field, is
    empty or only white space once trimmed is answered with the client error
    [Transcript is empty].  Either way the state is left as it was: no
    completion call, no event. *)
Theorem summarize_rejects_missing_or_blank req s :
  (req_file req = None -> truthy (req_transcript req) = false ->
   api_summarize E req s
   = (Ret (error_response 400 (lit "No transcript provided")), s))
  /\ (forall text : jsstring,
        req_file req = Some text
        \/ (req_file req = None /\ req_transcript req = JStr text
            /\ text <> []) ->
        trim text = [] ->
        api_summarize E req s
        = (Ret (error_response 400 (lit "Transcript is empty")), s)).
Proof.
  split.
  - apply api_summarize_missing.
  - intros text [Hf | (Hf & Ht & Hne)] Hb.
    + apply api_summarize_blank with (text := text); [|exact Hb].
      now apply transcriptText_file.
    + apply api_summarize_blank with (text := text); [|exact Hb].
      now apply transcriptText_field.
Qed.

(** C7. For a transcript that is not blank and custom instructions that a
    template literal can render (any string, or none), the Summarize
    operation always answers with the success payload.  When no completion
    credential is configured, or when the completion call raises, whatever
    the error, the summary in that payload is the local fallback summary. *)
Theorem summarize_never_fails_outward req (text : jsstring) s :
  req_file req = Some text
  \/ (req_file req = None /\ req_transcript req = JStr text) ->
  trim text <> [] ->
  to_string (req_customPrompt req) <> None ->
  exists fallback : jsstring,
    generateSimpleSummary text (req_customPrompt req) = Ret fallback
    /\ (exists summary,
          fst (api_summarize E req s)
          = Ret (summarize_success summary text))
    /\ (configured (getenv E (lit "GROQ_API_KEY")) = false
        \/ (exists e,
              fst (completion_call E
                     (env_string (getenv E (lit "GROQ_API_KEY")))
                     text (req_customPrompt req) s) = Throw e) ->
        fst (api_summarize E req s)
        = Ret (summarize_success (JStr fallback) text)).
Proof.
  intros Hsrc Hb Hcp.
  assert (Ht : transcriptText req = Some (JStr text)).
  { destruct Hsrc as [Hf | [Hf Hfield]].
    - now apply transcriptText_file.
    - apply transcriptText_field; auto. now apply trim_nil_inv. }
  destruct (generateSimpleSummary_total text _ Hcp) as (fallback & Hfb).
  exists fallback. split; [exact Hfb|].
  rewrite api_summarize_text with (text := text) by assumption. split.
  - destruct (@generateSummary_total text (req_customPrompt req) s Hcp)
      as (summary & s' & ->).
    now exists summary.
  - intros [Hk | [e He]].
    + now rewrite generateSummary_unconfigured with (fallback := fallback).
    + destruct (configured (getenv E (lit "GROQ_API_KEY"))) eqn:Hk.
      * destruct (completion_call E _ text (req_customPrompt req) s)
          as [o s'] eqn:Hc.
        cbn [fst] in He. subst o.
        now rewrite generateSummary_primary_throws
          with (fallback := fallback) (e := e) (s' := s').
      * now rewrite generateSummary_unconfigured with (fallback := fallback).
Qed.

(** C10. When a Summarize request carries an uploaded file and a non-empty
    transcript field, the file content is the transcript: the answer is the
    one the same request would get without the field, a blank file is
    rejected as empty whatever the field holds, and otherwise the summary is
    computed from the file content, which also comes back as
    [originalText]. *)
Theorem summarize_file_precedence req (content : jsstring) s :
  req_file req = Some content ->
  truthy (req_transcript req) = true ->
  api_summarize E req s
  = api_summarize E {| req_file := Some content;
                       req_customPrompt := req_customPrompt req;
                       req_transcript := JUndefined |} s
  /\ (trim content = [] ->
      api_summarize E req s
      = (Ret (error_response 400 (lit "Transcript is empty")), s))
  /\ (trim content <> [] ->
      forall summary s',
        generateSummary E content (req_customPrompt req) s
        = (Ret summary, s') ->
        api_summarize E req s = (Ret (summarize_success summary content), s')).
Proof.
  intros Hf _. split; [|split].
  - unfold api_summarize, transcriptText. now rewrite Hf.
  - intros Hb. apply api_summarize_blank with (text := content); auto.
    now apply transcriptText_file.
  - intros Hb summary s' Hrun.
    rewrite api_summarize_text with (text := content);
      [now rewrite Hrun | now apply transcriptText_file | exact Hb].
Qed.

End Handlers.

(* ----------------------------------------------------------------- *)
(** ** Determinism of the fallback *)

(** C5. The fallback summarizer is a function of its two arguments alone:
    equal transcripts and custom prompts give equal outputs, and two runs of
    the summarizer without a completion credential, in any two environments
    and states, return the same result. *)
Theorem fallback_deterministic
    (World1 World2 : Type) (E1 : Env World1) (E2 : Env World2)
    (s1 : State World1) (s2 : State World2)
    (transcript1 transcript2 : jsstring)
    (customPrompt1 customPrompt2 : jsval) :
  transcript1 = transcript2 ->
  customPrompt1 = customPrompt2 ->
  generateSimpleSummary transcript1 customPrompt1
  = generateSimpleSummary transcript2 customPrompt2
  /\ (configured (getenv E1 (lit "GROQ_API_KEY")) = false ->
      configured (getenv E2 (lit "GROQ_API_KEY")) = false ->
      fst (generateSummary E1 transcript1 customPrompt1 s1)
      = fst (generateSummary E2 transcript2 customPrompt2 s2)).
Proof.
  intros -> ->. split; [reflexivity|].
  intros H1 H2. unfold generateSummary, simple_summary. unfold_m.
  rewrite H1, H2. cbn [negb].
  destruct (generateSimpleSummary transcript2 customPrompt2); reflexivity.
Qed.

Lemma fallback_deterministic_witness :
  fst (generateSummary env_bare two_fragments (JStr (lit "Be brief")) start)
  = fst (generateSummary env_bad_mail_key two_fragments
           (JStr (lit "Be brief")) {| world := 7; trace := [SetTimeout 1000] |}).
Proof.
  apply (fallback_deterministic env_bare env_bad_mail_key start
           {| world := 7; trace := [SetTimeout 1000] |}
           (transcript1 := two_fragments) (transcript2 := two_fragments)
           (customPrompt1 := JStr (lit "Be brief"))
           (customPrompt2 := JStr (lit "Be brief")) eq_refl eq_refl);
    reflexivity.
Defined.

(* ----------------------------------------------------------------- *)
(** ** The claims on the sample requests *)

(** An empty recipients list passes the validation of the Share handler. *)
Lemma share_empty_list_accepted :
  share_recipients (share_to (JArr [])) = JArr []
  /\ fst (api_share env_bare (share_to (JArr [])) start) = Ret share_success
  /\ fst (api_share env_bare (share_to (JArr [])) start)
     <> Ret (error_response 400 (lit "Invalid request data")).
Proof.
  split; [reflexivity|]. split; [vm_compute; reflexivity|].
  vm_compute. discriminate.
Qed.

Lemma share_rejects_non_list_witness :
  api_share env_mail (share_to (JStr (lit "ann@example.org"))) start
  = (Ret (error_response 400 (lit "Invalid request data")), start).
Proof.
  destruct (share_rejects_non_list env_mail
              (share_to (JStr (lit "ann@example.org"))) start
              (or_intror eq_refl)) as (_ & H & _).
  apply H. left. reflexivity.
Defined.

(** An empty transcript field, with no file, is reported as missing. *)
Lemma summarize_empty_field_reported_missing :
  req_transcript (summarize_text (JStr [])) = JStr []
  /\ api_summarize env_bare (summarize_text (JStr [])) start
     = (Ret (error_response 400 (lit "No transcript provided")), start)
  /\ fst (api_summarize env_bare (summarize_text (JStr [])) start)
     <> Ret (error_response 400 (lit "Transcript is empty")).
Proof.
  split; [reflexivity|]. split; [vm_compute; reflexivity|].
  vm_compute. discriminate.
Qed.

Lemma summarize_rejects_missing_or_blank_witness :
  api_summarize env_groq_up (summarize_text JUndefined) start
  = (Ret (error_response 400 (lit "No transcript provided")), start)
  /\ api_summarize env_groq_up (summarize_text (JStr (lit "  "))) start
     = (Ret (error_response 400 (lit "Transcript is empty")), start)
  /\ api_summarize env_groq_up
       (summarize_file (lit "") (JStr two_fragments)) start
     = (Ret (error_response 400 (lit "Transcript is empty")), start).
Proof.
  split; [|split].
  - apply (proj1 (summarize_rejects_missing_or_blank env_groq_up
                    (summarize_text JUndefined) start)); reflexivity.
  - apply (proj2 (summarize_rejects_missing_or_blank env_groq_up
                    (summarize_text (JStr (lit "  "))) start) (lit "  ")).
    + right. repeat split. discriminate.
    + reflexivity.
  - apply (proj2 (summarize_rejects_missing_or_blank env_groq_up
                    (summarize_file (lit "") (JStr two_fragments)) start)
             (lit "")).
    + left. reflexivity.
    + reflexivity.
Defined.

Lemma summarize_never_fails_outward_witness :
  exists fallback : jsstring,
    generateSimpleSummary two_fragments JUndefined = Ret fallback
    /\ fst (api_summarize env_groq_down
              (summarize_text (JStr two_fragments)) start)
       = Ret (summarize_success (JStr fallback) two_fragments).
Proof.
  destruct (summarize_never_fails_outward env_groq_down
              (summarize_text (JStr two_fragments))
              (text := two_fragments) start)
    as (fallback & Hfb & _ & Hdown).
  - right. split; reflexivity.
  - vm_compute. discriminate.
  - vm_compute. discriminate.
  - exists fallback. split; [exact Hfb|]. apply Hdown.
    right. exists network_error. vm_compute. reflexivity.
Defined.

Lemma share_sequential_abort_witness :
  exists calls : list (Msg * option Err),
    sends (trace (snd (api_share env_mail (share_to (JArr three_recipients))
                         start))) = calls
    /\ List.length calls <= 3
    /\ (forall i msg e,
          nth_error calls i = Some (msg, Some e) ->
          List.length calls = S i
          /\ fst (api_share env_mail (share_to (JArr three_recipients)) start)
             = Ret (error_response 500 (lit "Failed to send email"))).
Proof.
  destruct (share_sequential_abort env_mail
              (share_to (JArr three_recipients))
              (rs := three_recipients) (key := lit "SG.sample-key") start)
    as (calls & Htr & Hlen & _ & Hfail & _);
    try reflexivity; try discriminate.
  exists calls. split; [exact Htr|]. split; [exact Hlen | exact Hfail].
Defined.

Lemma share_malformed_credential_witness :
  fst (api_share env_bad_mail_key (share_to (JArr three_recipients)) start)
  = Ret (error_response 500 (lit "Failed to send email"))
  /\ world (snd (api_share env_bad_mail_key
                   (share_to (JArr three_recipients)) start)) = 0.
Proof.
  destruct (share_malformed_credential env_bad_mail_key
              (share_to (JArr three_recipients))
              (key := lit "sample-key") start)
    as (Hresp & _ & Hworld & _).
  - reflexivity.
  - discriminate.
  - reflexivity.
  - split; [exact Hresp | exact Hworld].
Defined.

Lemma summarize_file_precedence_witness :
  api_summarize env_bare
    (summarize_file two_fragments (JStr five_fragments)) start
  = api_summarize env_bare (summarize_file two_fragments JUndefined) start.
Proof.
  destruct (summarize_file_precedence env_bare
              (summarize_file two_fragments (JStr five_fragments))
              (content := two_fragments) start) as (H & _).
  - reflexivity.
  - reflexivity.
  - exact H.
Defined.

(* ----------------------------------------------------------------- *)
(** ** Worked runs *)

Example split_edge_cases :
  split_sentences (lit "") = [lit ""]
  /\ split_sentences (lit "abc.") = [lit "abc"; lit ""]
  /\ split_sentences (lit "?!abc") = [lit ""; lit "abc"]
  /\ split_sentences (lit "a?!.. b") = [lit "a"; lit " b"]
  /\ split_sentences (lit "...") = [lit ""; lit ""].
Proof. repeat split; reflexivity. Qed.

Example trim_examples :
  trim (lit "  a b  ") = lit "a b"
  /\ trim ([9; 10; 160; 65279] ++ lit "x" ++ [8232; 12288])%N = lit "x"
  /\ trim (lit "   ") = lit "".
Proof. repeat split; reflexivity. Qed.

(** The example of the specification. *)
Example fallback_worked_example :
  generateSimpleSummary five_fragments JUndefined
  = Ret (lit "Summary:" ++ nl
         ++ bullet ++ lit "We discussed the budget" ++ nl
         ++ bullet ++ lit "It was long" ++ nl
         ++ bullet ++ lit "Nothing else matters here really" ++ nl
         ++ bullet ++ lit "This is fragment four" ++ nl
         ++ bullet ++ lit "This is the fifth one").
Proof. vm_compute. reflexivity. Qed.

(** No qualifying fragment: the header alone. *)
Example fallback_no_fragment :
  generateSimpleSummary (lit "Ok. Fine! Sure?") JUndefined
  = Ret (lit "Summary:" ++ nl).
Proof. vm_compute. reflexivity. Qed.

(** A fragment that spans two lines of the transcript is one entry, line
    break included. *)
Example fallback_keeps_interior_line_breaks :
  generateSimpleSummary
    (lit "Ann opened the meeting" ++ nl ++ lit "Bob took notes. Thanks all!")
    JUndefined
  = Ret (lit "Summary:" ++ nl
         ++ bullet ++ lit "Ann opened the meeting" ++ nl ++ lit "Bob took notes").
Proof. vm_compute. reflexivity. Qed.

(** Interpolation of values that are not strings. *)
Example to_string_examples :
  to_string (JArr [JStr (lit "a"); JNull; JNum (lit "2")]) = Some (lit "a,,2")
  /\ to_string (JObj [(lit "a", JBool true)]) = Some (lit "[object Object]")
  /\ to_string (JObj [(lit "toString", JNum (lit "1"))]) = None
  /\ to_string (JBool false) = Some (lit "false").
Proof. repeat split; reflexivity. Qed.

(** The second delivery is rejected: two calls, the third recipient is never
    tried, and the caller gets the server error. *)
Example share_second_recipient_fails :
  let r := api_share env_mail (share_to (JArr three_recipients)) start in
  fst r = Ret (error_response 500 (lit "Failed to send email"))
  /\ map (fun c => (msg_to (fst c), snd c)) (sends (trace (snd r)))
     = [(JStr (lit "ann@example.org"), None);
        (JStr (lit "bob@example.org"), Some (Error (lit "Bad Request")))].
Proof. vm_compute. split; reflexivity. Qed.

(** Every delivery is accepted: one call per recipient, in list order. *)
Example share_all_delivered :
  let r := api_share env_mail_ok (share_to (JArr three_recipients)) start in
  fst r = Ret share_success
  /\ map (fun c => (msg_to (fst c), snd c)) (sends (trace (snd r)))
     = [(JStr (lit "ann@example.org"), None);
        (JStr (lit "bob@example.org"), None);
        (JStr (lit "cy@example.org"), None)]
  /\ world (snd r) = 3.
Proof. vm_compute. repeat split; reflexivity. Qed.

(** Without a delivery credential nothing is sent and the answer is the
    success payload, after the simulated delay. *)
Example share_without_credential :
  let r := api_share env_bare (share_to (JArr three_recipients)) start in
  fst r = Ret share_success
  /\ sends (trace (snd r)) = []
  /\ In (SetTimeout 1000) (trace (snd r)).
Proof. vm_compute. repeat split; auto 10. Qed.

(** The completion API answers: its text is the summary. *)
Example summarize_primary_path :
  fst (api_summarize env_groq_up (summarize_text (JStr two_fragments)) start)
  = Ret (summarize_success (JStr (lit "Done")) two_fragments).
Proof. vm_compute. reflexivity. Qed.

(** A transcript field that is not a string makes [trim] fail, and the
    handler answers with its generic server error. *)
Example summarize_number_transcript :
  fst (api_summarize env_bare (summarize_text (JNum (lit "5"))) start)
  = Ret (error_response 500 (lit "Failed to generate summary")).
Proof. vm_compute. reflexivity. Qed.

(** Custom instructions that no template literal can render (a parsed object
    with an own [toString] entry) make the fallback itself throw, and the
    handler answers with its generic server error. *)
Example summarize_uninterpolable_prompt :
  fst (api_summarize env_bare
         {| req_file := None;
            req_customPrompt := JObj [(lit "toString", JNum (lit "1"))];
            req_transcript := JStr two_fragments |} start)
  = Ret (error_response 500 (lit "Failed to generate summary")).
Proof. vm_compute. reflexivity. Qed.

(* ================================================================= *)
(** * Further properties *)

(* ----------------------------------------------------------------- *)
(** ** More on strings *)

Lemma trimStart_head (s : jsstring) (c : char) (rest : jsstring) :
  trimStart s = c :: rest -> is_white_space c = false.
Proof.
  induction s as [|x s IH]; simpl; [discriminate|].
  destruct (is_white_space x) eqn:Hx; [exact IH|].
  intros H. injection H as <- _. exact Hx.
Qed.

Lemma trimStart_fixed (s : jsstring) :
  (forall c rest, s = c :: rest -> is_white_space c = false) ->
  trimStart s = s.
Proof.
  destruct s as [|c s]; [reflexivity|]. intros H. simpl.
  now rewrite (H c s eq_refl).
Qed.

Lemma trimEnd_decompose (s : jsstring) :
  exists ws, s = trimEnd s ++ ws /\ forallb is_white_space ws = true.
Proof.
  destruct (trimStart_decompose (rev s)) as (ws & Hr & Hws).
  exists (rev ws). split; [|now rewrite forallb_rev].
  unfold trimEnd. rewrite <- rev_app_distr, <- Hr. now rewrite rev_involutive.
Qed.

(** The result of [trim] neither starts nor ends with white space. *)
Lemma trim_head (s : jsstring) (c : char) (rest : jsstring) :
  trim s = c :: rest -> is_white_space c = false.
Proof.
  intros H. destruct (trimEnd_decompose (trimStart s)) as (ws & Heq & _).
  fold (trim s) in Heq. rewrite H in Heq.
  eapply trimStart_head. exact Heq.
Qed.

Lemma trim_last (s : jsstring) (init : jsstring) (c : char) :
  trim s = init ++ [c] -> is_white_space c = false.
Proof.
  intros H. unfold trim, trimEnd in H.
  apply (f_equal (@rev char)) in H.
  rewrite rev_involutive, rev_app_distr in H. simpl in H.
  eapply trimStart_head. exact H.
Qed.

Lemma trim_fixed (s : jsstring) :
  (forall c rest, s = c :: rest -> is_white_space c = false) ->
  (forall init c, s = init ++ [c] -> is_white_space c = false) ->
  trim s = s.
Proof.
  intros Hhead Hlast. unfold trim. rewrite (@trimStart_fixed s Hhead).
  unfold trimEnd. rewrite trimStart_fixed; [apply rev_involutive|].
  intros c rest Hrev. apply (Hlast (rev rest) c).
  apply (f_equal (@rev char)) in Hrev. rewrite rev_involutive in Hrev.
  exact Hrev.
Qed.

Lemma trim_idempotent (s : jsstring) : trim (trim s) = trim s.
Proof.
  apply trim_fixed.
  - intros c rest H. eapply trim_head. exact H.
  - intros init c H. eapply trim_last. exact H.
Qed.

Lemma forallb_trim (keep : char -> bool) (s : jsstring) :
  forallb keep s = true -> forallb keep (trim s) = true.
Proof.
  destruct (trim_decompose s) as (before & after & Heq & _).
  intros H. rewrite Heq in H. rewrite !forallb_app in H.
  apply andb_true_iff in H as [_ H]. now apply andb_true_iff in H as [H _].
Qed.

Lemma In_firstn {A} (n : nat) (l : list A) (x : A) :
  In x (firstn n l) -> In x l.
Proof.
  intros H. rewrite <- (firstn_skipn n l). apply in_or_app. now left.
Qed.

(** A string without terminator is its own single piece. *)
Lemma split_from_plain (b : bool) (s : jsstring) :
  forallb (fun c => negb (is_terminator c)) s = true -> split_from b s = [s].
Proof.
  revert b; induction s as [|c s IH]; intros b H; [reflexivity|].
  simpl in H. apply andb_true_iff in H as [Hc Hs].
  apply negb_true_iff in Hc. simpl. rewrite Hc. now rewrite (IH false Hs).
Qed.

(* ----------------------------------------------------------------- *)
(** ** More on the fallback summarizer *)

(** Splitting a string that goes on with a terminator: the pieces of the
    part before it, then the pieces of what follows; an empty last piece of
    the first part is absorbed when the terminator extends a separator. *)
Lemma split_from_append_terminator (c : char) (u t : jsstring) (b : bool) :
  is_terminator c = true ->
  exists front last,
    split_from b t = front ++ [last]
    /\ (split_from b (t ++ c :: u) = front ++ [last] ++ split_from true u
        \/ (last = [] /\ (front <> [] \/ b = true)
            /\ split_from b (t ++ c :: u) = front ++ split_from true u)).
Proof.
  intros Hc. revert b. induction t as [|x t IH]; intros b.
  - exists [], []. split; [reflexivity|]. simpl. rewrite Hc.
    destruct b; [right; auto | left; reflexivity].
  - cbn [app split_from]. destruct (is_terminator x) eqn:Hx.
    + destruct (IH true) as (front & last & Ht & Hcases). rewrite Ht.
      destruct b.
      * exists front, last. split; [reflexivity|].
        destruct Hcases as [-> | (-> & _ & ->)]; [now left|].
        right. split; [reflexivity|]. split; [now right | reflexivity].
      * exists ([] :: front), last. split; [reflexivity|].
        destruct Hcases as [-> | (-> & _ & ->)]; [now left|].
        right. split; [reflexivity|].
        split; [left; discriminate | reflexivity].
    + destruct (IH false) as (front & last & Ht & Hcases). rewrite Ht.
      destruct front as [|f front].
      * exists [], (x :: last). split; [reflexivity|]. left.
        destruct Hcases as [-> | (_ & [Hf | Hf] & _)];
          [reflexivity | congruence | discriminate].
      * exists ((x :: f) :: front), last. split; [reflexivity|].
        destruct Hcases as [-> | (-> & _ & ->)]; [now left|].
        right. split; [reflexivity|].
        split; [left; discriminate | reflexivity].
Qed.

Lemma sentences_append_terminator (c : char) (t u : jsstring) :
  is_terminator c = true ->
  sentences (t ++ c :: u)
  = sentences t ++ filter long_enough (split_from true u).
Proof.
  intros Hc. unfold sentences, split_sentences.
  destruct (@split_from_append_terminator c u t false Hc)
    as (front & last & -> & [-> | (-> & _ & ->)]).
  - now rewrite !filter_app, app_assoc.
  - rewrite !filter_app. simpl. now rewrite app_nil_r.
Qed.

(** The summarizer never looks past its fifth key point: once a transcript
    has five fragments of trimmed length above 10, whatever follows a further
    terminator leaves the summary as it is; before that, the key points
    already found stay the first ones. *)
Theorem fallback_ignores_later_text (c : char) (t u : jsstring)
    (customPrompt : jsval) :
  is_terminator c = true ->
  (exists more, keyPoints (t ++ c :: u) = keyPoints t ++ more)
  /\ (5 <= List.length (sentences t) ->
      generateSimpleSummary (t ++ c :: u) customPrompt
      = generateSimpleSummary t customPrompt).
Proof.
  intros Hc.
  assert (Hkp : keyPoints (t ++ c :: u)
                = keyPoints t
                  ++ map (fun s => bullet ++ trim s)
                       (firstn (5 - List.length (sentences t))
                          (filter long_enough (split_from true u)))).
  { unfold keyPoints. rewrite (@sentences_append_terminator c t u Hc).
    now rewrite firstn_app, map_app. }
  split; [eexists; exact Hkp|].
  intros Hfive. unfold generateSimpleSummary. rewrite Hkp.
  replace (5 - List.length (sentences t)) with 0 by lia.
  simpl. now rewrite app_nil_r.
Qed.

Lemma fallback_ignores_later_text_witness :
  generateSimpleSummary
    (five_fragments ++ 63%N :: lit " And a sixth sentence follows here.")
    JUndefined
  = generateSimpleSummary five_fragments JUndefined.
Proof.
  apply (@fallback_ignores_later_text 63%N
           five_fragments (lit " And a sixth sentence follows here.")
           JUndefined eq_refl).
  vm_compute. lia.
Defined.

(** Every key point is the bullet marker followed by a body that is longer
    than 10 code units, holds no terminator, and has no white space at either
    end; there are never more than five, and exactly as many as there are
    qualifying fragments up to five. *)
Theorem keyPoints_shape (transcript : jsstring) :
  List.length (keyPoints transcript)
  = Nat.min 5 (List.length (sentences transcript))
  /\ forall point, In point (keyPoints transcript) ->
       exists fragment body,
         In fragment (split_sentences transcript)
         /\ body = trim fragment
         /\ point = bullet ++ body
         /\ 10 < List.length body
         /\ forallb (fun c => negb (is_terminator c)) body = true
         /\ (forall c rest, body = c :: rest -> is_white_space c = false)
         /\ (forall init c, body = init ++ [c] -> is_white_space c = false).
Proof.
  split.
  - unfold keyPoints. now rewrite length_map, length_firstn.
  - intros point Hin. unfold keyPoints in Hin.
    apply in_map_iff in Hin as (fragment & <- & Hin).
    apply In_firstn, sentences_long_enough in Hin as [Hin Hlong].
    exists fragment, (trim fragment).
    split; [exact Hin|]. split; [reflexivity|]. split; [reflexivity|].
    split; [exact Hlong|]. split; [|split].
    + apply forallb_trim.
      pose proof (split_from_no_terminator false transcript) as Hall.
      rewrite Forall_forall in Hall. now apply Hall.
    + intros c rest H. eapply trim_head. exact H.
    + intros init c H. eapply trim_last. exact H.
Qed.

(** A transcript without [.], [!] or [?] is one fragment: the summary holds
    the whole trimmed transcript as its only key point when that is longer
    than 10 code units, and the header alone otherwise. *)
Theorem fallback_no_terminator (transcript : jsstring) (customPrompt : jsval) :
  forallb (fun c => negb (is_terminator c)) transcript = true ->
  truthy customPrompt = false ->
  generateSimpleSummary transcript customPrompt
  = Ret (if 10 <? List.length (trim transcript)
         then lit "Summary:" ++ nl ++ bullet ++ trim transcript
         else lit "Summary:" ++ nl).
Proof.
  intros Hplain Hcp. rewrite generateSimpleSummary_absent by assumption.
  unfold keyPoints, sentences, split_sentences.
  rewrite (@split_from_plain false transcript Hplain). cbn [filter].
  unfold long_enough. destruct (10 <? List.length (trim transcript));
    reflexivity.
Qed.

Lemma fallback_no_terminator_witness :
  generateSimpleSummary (lit "  agenda items for next week  ") JNull
  = Ret (lit "Summary:" ++ nl ++ bullet ++ lit "agenda items for next week").
Proof.
  rewrite (@fallback_no_terminator (lit "  agenda items for next week  ")
             JNull eq_refl eq_refl).
  vm_compute. reflexivity.
Defined.

(** The split loses nothing: its pieces hold no terminator, and putting a
    non-empty run of terminators back between consecutive pieces gives the
    transcript again, so there is one piece more than there are runs. *)
Theorem split_sentences_roundtrip (transcript : jsstring) :
  exists seps,
    List.length (split_sentences transcript) = S (List.length seps)
    /\ Forall (fun sep => sep <> [] /\ forallb is_terminator sep = true) seps
    /\ Forall (fun piece =>
                 forallb (fun c => negb (is_terminator c)) piece = true)
              (split_sentences transcript)
    /\ interleave (split_sentences transcript) seps = transcript.
Proof.
  destruct (split_from_interleave transcript) as [(seps & Hlen & Hseps & Heq) _].
  exists seps. split; [symmetry; exact Hlen|]. split; [exact Hseps|].
  split; [apply split_from_no_terminator | exact Heq].
Qed.

(* ----------------------------------------------------------------- *)
(** ** More on the Summarize route *)

Section MoreHandlers.

Variable World : Type.
Variable E : Env World.

Implicit Types (s : State World) (body : ShareBody) (req : SummarizeReq).

(** One run of the completion call: nothing happens when the instructions
    cannot be rendered; otherwise exactly one request goes out, and its
    answer is taken apart. *)
Lemma completion_call_run (key text : jsstring) (customPrompt : jsval) s :
  completion_call E key text customPrompt s
  = match to_string (instructions_of customPrompt) with
    | None => (Throw TypeError, s)
    | Some instructions =>
        let data := completion_data text instructions in
        let config := completion_config key in
        let s' w :=
          {| world := w; trace := trace s ++ [AxiosPost groq_url data config] |}
        in
        match http_post E groq_url data config (world s) with
        | (Ret response, w) => (extract_content response, s' w)
        | (Throw e, w) => (Throw e, s' w)
        end
    end.
Proof.
  unfold completion_call, instructions_of, interpolate. unfold_m.
  destruct (to_string (if truthy customPrompt then customPrompt
                       else JStr default_instructions)) as [instructions|];
    [|reflexivity].
  unfold axios_post, extract_content, completion_data, completion_config,
    user_content.
  cbv zeta.
  destruct (http_post E groq_url _ _ (world s)) as [[response|e] w];
    [|reflexivity].
  destruct (get_prop response (lit "data")) as [data|]; [|reflexivity].
  destruct (get_prop data (lit "choices")) as [choices|]; [|reflexivity].
  destruct (get_first choices) as [choice|]; [|reflexivity].
  destruct (get_prop choice (lit "message")) as [message|]; reflexivity.
Qed.


(** [generateSummary], run from a state. *)
Lemma generateSummary_run (text : jsstring) (customPrompt : jsval) s :
  generateSummary E text customPrompt s
  = let fallback s' :=
      match generateSimpleSummary text customPrompt with
      | Ret summary => (Ret (JStr summary), s')
      | Throw e => (Throw e, s')
      end in
    let logged e s' :=
      {| world := world s';
         trace := trace s' ++ [ConsoleError (lit "AI service error:") e] |} in
    if configured (getenv E (lit "GROQ_API_KEY")) then
      match completion_call E (env_string (getenv E (lit "GROQ_API_KEY")))
              text customPrompt s with
      | (Ret content, s') => (Ret content, s')
      | (Throw e, s') => fallback (logged e s')
      end
    else
      match generateSimpleSummary text customPrompt with
      | Ret summary => (Ret (JStr summary), s)
      | Throw e => fallback (logged e s)
      end.
Proof.
  unfold generateSummary, simple_summary. unfold_m.
  destruct (configured (getenv E (lit "GROQ_API_KEY"))); cbn [negb].
  - destruct (completion_call E _ text customPrompt s) as [[content|e] s'];
      [reflexivity|].
    destruct (generateSimpleSummary text customPrompt); reflexivity.
  - destruct (generateSimpleSummary text customPrompt); reflexivity.
Qed.

(** What one call of [generateSummary] does to the outside: at most one
    request, to the completion endpoint, and at most one console line, the
    error it swallowed. *)
Lemma generateSummary_effects (text : jsstring) (customPrompt : jsval) s :
  let key := env_string (getenv E (lit "GROQ_API_KEY")) in
  exists pre errs,
    trace (snd (generateSummary E text customPrompt s))
    = trace s ++ pre ++ errs
    /\ (errs = [] \/ exists e, errs = [ConsoleError (lit "AI service error:") e])
    /\ ((pre = []
         /\ world (snd (generateSummary E text customPrompt s)) = world s
         /\ (configured (getenv E (lit "GROQ_API_KEY")) = false
             \/ to_string (instructions_of customPrompt) = None))
        \/ (configured (getenv E (lit "GROQ_API_KEY")) = true
            /\ exists instructions,
                 to_string (instructions_of customPrompt) = Some instructions
                 /\ pre = [AxiosPost groq_url
                             (completion_data text instructions)
                             (completion_config key)])).
Proof.
  intros key. subst key. rewrite generateSummary_run. cbv zeta.
  destruct (configured (getenv E (lit "GROQ_API_KEY"))) eqn:Hk.
  - rewrite completion_call_run.
    destruct (to_string (instructions_of customPrompt)) as [instructions|]
      eqn:Hi.
    + cbv zeta.
      destruct (http_post E groq_url _ _ (world s)) as [[response|e] w].
      * destruct (extract_content response) as [content|e].
        -- eexists [AxiosPost groq_url _ _], []. cbn [snd trace].
           split; [reflexivity|]. split; [now left|].
           right. split; [reflexivity|]. now exists instructions.
        -- eexists [AxiosPost groq_url _ _], [ConsoleError _ e].
           destruct (generateSimpleSummary text customPrompt);
             cbn [snd trace]; rewrite <- app_assoc;
             (split; [reflexivity|]); (split; [right; now exists e|]);
             right; (split; [reflexivity|]); now exists instructions.
      * eexists [AxiosPost groq_url _ _], [ConsoleError _ e].
        destruct (generateSimpleSummary text customPrompt);
          cbn [snd trace]; rewrite <- app_assoc;
          (split; [reflexivity|]); (split; [right; now exists e|]);
          right; (split; [reflexivity|]); now exists instructions.
    + eexists [], [ConsoleError _ TypeError].
      destruct (generateSimpleSummary text customPrompt);
        cbn [snd trace world app];
        (split; [reflexivity|]); (split; [right; now exists TypeError|]);
        left; auto.
  - destruct (generateSimpleSummary text customPrompt) as [summary|e] eqn:Hf.
    + exists [], []. cbn [snd trace world]. rewrite app_nil_r.
      split; [reflexivity|]. split; [now left|]. left. auto.
    + eexists [], [ConsoleError _ e]. cbn [snd trace world app].
      split; [reflexivity|]. split; [right; now exists e|]. left. auto.
Qed.


(** The Summarize route, run from a state. *)
Lemma api_summarize_run req s :
  api_summarize E req s
  = let failed e s' :=
      (Ret (error_response 500 (lit "Failed to generate summary")),
       {| world := world s';
          trace := trace s' ++ [ConsoleError (lit "Summarization error:") e]
       |}) in
    match transcriptText req with
    | None => (Ret (error_response 400 (lit "No transcript provided")), s)
    | Some (JStr text) =>
        if is_empty (trim text) then
          (Ret (error_response 400 (lit "Transcript is empty")), s)
        else
          match generateSummary E text (req_customPrompt req) s with
          | (Ret summary, s') => (Ret (summarize_success summary text), s')
          | (Throw e, s') => failed e s'
          end
    | Some _ => failed TypeError s
    end.
Proof.
  unfold api_summarize. unfold_m.
  destruct (transcriptText req) as [[| | | |text| |]|]; try reflexivity.
  destruct (is_empty (trim text)); [reflexivity|].
  destruct (generateSummary E text (req_customPrompt req) s) as [[v|e] s'];
    reflexivity.
Qed.

Lemma generateSummary_throws (text : jsstring) (customPrompt : jsval) s e :
  fst (generateSummary E text customPrompt s) = Throw e ->
  to_string customPrompt = None.
Proof.
  intros H. destruct (to_string customPrompt) eqn:Hcp; [|reflexivity].
  destruct (@generateSummary_total World E text customPrompt s)
    as (summary & s' & Hrun); [congruence|].
  rewrite Hrun in H. discriminate H.
Qed.

(** Every Summarize request is answered: the handler never throws, and its
    answer is the success payload carrying the transcript unchanged as
    [originalText], one of the two client errors, or the generic server
    error.  The server error arises only from a transcript that is not a
    string or from custom instructions that cannot be rendered. *)
Theorem api_summarize_always_responds req s :
  exists resp,
    fst (api_summarize E req s) = Ret resp
    /\ ((exists text summary,
           transcriptText req = Some (JStr text)
           /\ trim text <> []
           /\ resp = summarize_success summary text)
        \/ resp = error_response 400 (lit "No transcript provided")
        \/ resp = error_response 400 (lit "Transcript is empty")
        \/ resp = error_response 500 (lit "Failed to generate summary"))
    /\ (resp = error_response 500 (lit "Failed to generate summary") ->
        (exists v, transcriptText req = Some v
                   /\ forall text, v <> JStr text)
        \/ to_string (req_customPrompt req) = None).
Proof.
  rewrite api_summarize_run. cbv zeta.
  destruct (transcriptText req) as [v|] eqn:Ht.
  2:{ eexists. split; [reflexivity|]. split; [auto|]. discriminate. }
  assert (Hother : (forall text, v <> JStr text) ->
                   exists resp,
                     Ret (error_response 500 (lit "Failed to generate summary"))
                     = Ret resp
                     /\ ((exists text summary,
                            Some v = Some (JStr text)
                            /\ trim text <> []
                            /\ resp = summarize_success summary text)
                         \/ resp = error_response 400
                                     (lit "No transcript provided")
                         \/ resp = error_response 400
                                     (lit "Transcript is empty")
                         \/ resp = error_response 500
                                     (lit "Failed to generate summary"))
                     /\ (resp = error_response 500
                                  (lit "Failed to generate summary") ->
                         (exists v', Some v = Some v'
                                     /\ forall text, v' <> JStr text)
                         \/ to_string (req_customPrompt req) = None)).
  { intros Hv. eexists. split; [reflexivity|]. split; [auto|].
    intros _. left. now exists v. }
  destruct v as [| | | |text| |]; try (apply Hother; discriminate).
  clear Hother. destruct (is_empty (trim text)) eqn:Hb.
  - eexists. split; [reflexivity|]. split; [auto|]. discriminate.
  - apply is_empty_false in Hb.
    destruct (generateSummary E text (req_customPrompt req) s)
      as [[summary|e] s'] eqn:Hrun.
    + eexists. split; [reflexivity|]. split.
      * left. now exists text, summary.
      * discriminate.
    + eexists. split; [reflexivity|]. split; [auto|].
      intros _. right. apply (@generateSummary_throws text _ s e).
      now rewrite Hrun.
Qed.

Lemma console_only_quiet (evs : list Event) :
  forallb is_console evs = true ->
  sends evs = [] /\ posts evs = []
  /\ forall ev, In ev evs -> is_console ev = true.
Proof.
  induction evs as [|ev evs IH]; intros H; [repeat split; intros ? []|].
  simpl in H. apply andb_true_iff in H as [Hev Hevs].
  destruct (IH Hevs) as (Hs & Hp & Hc).
  destruct ev; try discriminate Hev; simpl; repeat split; auto;
    intros ev' [<- | Hin]; auto.
Qed.

(** The events of one Summarize request: the completion request, if it is
    made, then console lines only. *)
Lemma api_summarize_events req s :
  exists pre rest,
    trace (snd (api_summarize E req s)) = trace s ++ pre ++ rest
    /\ forallb is_console rest = true
    /\ ((pre = []
         /\ world (snd (api_summarize E req s)) = world s
         /\ ~ ((exists text, transcriptText req = Some (JStr text)
                             /\ trim text <> [])
               /\ configured (getenv E (lit "GROQ_API_KEY")) = true
               /\ to_string (instructions_of (req_customPrompt req)) <> None))
        \/ ((exists data config, pre = [AxiosPost groq_url data config])
            /\ (exists text, transcriptText req = Some (JStr text)
                             /\ trim text <> [])
            /\ configured (getenv E (lit "GROQ_API_KEY")) = true
            /\ to_string (instructions_of (req_customPrompt req)) <> None)).
Proof.
  rewrite api_summarize_run. cbv zeta.
  destruct (transcriptText req) as [v|] eqn:Ht.
  2:{ exists [], []. cbn [snd app]. rewrite app_nil_r.
      split; [reflexivity|]. split; [reflexivity|]. left.
      split; [reflexivity|]. split; [reflexivity|].
      intros ((text & Habs & _) & _). discriminate Habs. }
  destruct (match v with JStr text => Some text | _ => None end)
    as [text|] eqn:Hv.
  2:{ exists [], [ConsoleError (lit "Summarization error:") TypeError].
      assert (Hno : ~ ((exists text, Some v = Some (JStr text)
                                     /\ trim text <> [])
                       /\ configured (getenv E (lit "GROQ_API_KEY")) = true
                       /\ to_string (instructions_of (req_customPrompt req))
                          <> None)).
      { intros ((text & Habs & _) & _). injection Habs as ->.
        discriminate Hv. }
      destruct v; try discriminate Hv; cbn [snd trace world app];
        (split; [reflexivity|]); (split; [reflexivity|]); left;
        (split; [reflexivity|]); (split; [reflexivity | exact Hno]). }
  destruct v; try discriminate Hv. injection Hv as ->.
  destruct (is_empty (trim text)) eqn:Hb.
  - apply is_empty_true in Hb. exists [], []. cbn [snd app].
    rewrite app_nil_r.
    split; [reflexivity|]. split; [reflexivity|]. left.
    split; [reflexivity|]. split; [reflexivity|].
    intros ((text' & Habs & Hne) & _). injection Habs as <-. now elim Hne.
  - apply is_empty_false in Hb.
    destruct (generateSummary_effects text (req_customPrompt req) s)
      as (pre & errs & Htr & Herrs & Hpre). cbv zeta in Hpre.
    assert (Hec : forallb is_console errs = true).
    { destruct Herrs as [-> | [e ->]]; reflexivity. }
    exists pre.
    exists (errs ++ match fst (generateSummary E text
                                 (req_customPrompt req) s) with
                    | Ret _ => []
                    | Throw e =>
                        [ConsoleError (lit "Summarization error:") e]
                    end).
    destruct (generateSummary E text (req_customPrompt req) s)
      as [[summary|e] s'] eqn:Hrun; cbn [fst snd trace world] in *.
    + rewrite app_nil_r. split; [exact Htr|]. split; [exact Hec|].
      destruct Hpre as [(-> & Hw & Hwhy) | (Hk & instructions & Hi & ->)].
      * left. split; [reflexivity|]. split; [exact Hw|].
        intros (_ & Hk & Hi). destruct Hwhy; congruence.
      * right. split; [eauto|]. split; [now exists text|].
        split; [exact Hk | congruence].
    + split; [rewrite Htr; now rewrite <- !app_assoc|].
      split; [rewrite forallb_app, Hec; reflexivity|].
      destruct Hpre as [(-> & Hw & Hwhy) | (Hk & instructions & Hi & ->)].
      * left. split; [reflexivity|]. split; [exact Hw|].
        intros (_ & Hk & Hi). destruct Hwhy; congruence.
      * right. split; [eauto|]. split; [now exists text|].
        split; [exact Hk | congruence].
Qed.

(** A Summarize request never reaches the mail transport or the timer; it
    makes at most one outbound call, to the completion endpoint, and makes
    that call exactly when the transcript is a string that is not blank, a
    completion credential is configured and the instructions can be
    rendered.  Without the call the world is left as it was. *)
Theorem summarize_outbound_calls req s :
  exists evs,
    trace (snd (api_summarize E req s)) = trace s ++ evs
    /\ sends evs = []
    /\ List.length (posts evs) <= 1
    /\ (forall ev, In ev evs ->
          is_console ev = true
          \/ exists data config, ev = AxiosPost groq_url data config)
    /\ (posts evs = [] -> world (snd (api_summarize E req s)) = world s)
    /\ (posts evs <> [] <->
        (exists text, transcriptText req = Some (JStr text)
                      /\ trim text <> [])
        /\ configured (getenv E (lit "GROQ_API_KEY")) = true
        /\ to_string (instructions_of (req_customPrompt req)) <> None).
Proof.
  destruct (api_summarize_events req s) as (pre & rest & Htr & Hrest & Hpre).
  destruct (console_only_quiet rest Hrest) as (Hrs & Hrp & Hrc).
  exists (pre ++ rest). split; [exact Htr|].
  rewrite sends_app, posts_app, Hrs, Hrp, !app_nil_r.
  destruct Hpre as [(-> & Hw & Hno) | ((data & config & ->) & Hyes)].
  - split; [reflexivity|]. split; [simpl; lia|]. split; [|split; [|split]].
    + intros ev Hin. left. now apply Hrc.
    + intros _. exact Hw.
    + intros H. now elim H.
    + intros H. now elim Hno.
  - split; [reflexivity|]. split; [simpl; lia|]. split; [|split; [|split]].
    + intros ev [<- | Hin]; [right; eauto | left; now apply Hrc].
    + discriminate.
    + intros _. exact Hyes.
    + discriminate.
Qed.

(** When the completion API answers and its payload holds
    [choices[0].message.content], that value is the summary, word for word;
    the request made is the only event, and it carries the transcript, the
    instructions (the default ones when there is no custom prompt) and the
    credential as a bearer token. *)
Theorem summarize_primary_verbatim req (text key instructions : jsstring)
    (response content : jsval) (w : World) s :
  transcriptText req = Some (JStr text) ->
  trim text <> [] ->
  getenv E (lit "GROQ_API_KEY") = Some key ->
  key <> [] ->
  to_string (instructions_of (req_customPrompt req)) = Some instructions ->
  http_post E groq_url (completion_data text instructions)
    (completion_config key) (world s) = (Ret response, w) ->
  extract_content response = Ret content ->
  api_summarize E req s
  = (Ret (summarize_success content text),
     {| world := w;
        trace := trace s
                 ++ [AxiosPost groq_url (completion_data text instructions)
                       (completion_config key)] |})
  /\ (truthy (req_customPrompt req) = false ->
      instructions = default_instructions)
  /\ (forall prompt, req_customPrompt req = JStr prompt -> prompt <> [] ->
      instructions = prompt).
Proof.
  intros Ht Hb Hk Hne Hi Hpost Hx. split; [|split].
  - rewrite api_summarize_run. cbv zeta. rewrite Ht.
    apply is_empty_false in Hb. rewrite Hb.
    rewrite generateSummary_run. cbv zeta. rewrite Hk.
    assert (Hc : configured (Some key) = true)
      by (destruct key; [congruence | reflexivity]).
    rewrite Hc. cbn [env_string]. rewrite completion_call_run, Hi.
    cbv zeta. now rewrite Hpost, Hx.
  - intros Hf. unfold instructions_of in Hi. rewrite Hf in Hi.
    simpl in Hi. congruence.
  - intros prompt Hp Hpne. unfold instructions_of in Hi. rewrite Hp in Hi.
    simpl in Hi. destruct prompt; [congruence|]. simpl in Hi. congruence.
Qed.


(* ----------------------------------------------------------------- *)
(** ** More on the Share route *)

(** The events of the delivery loop: delivery calls and their console
    lines; a rejected call carries the error the loop throws. *)
Lemma send_each_events rs subject summary sender s :
  exists evs,
    trace (snd (send_each E rs subject summary sender s)) = trace s ++ evs
    /\ posts evs = []
    /\ (forall msg e',
          In (SgSend msg (Some e')) evs ->
          fst (send_each E rs subject summary sender s) = Throw e').
Proof.
  revert s. induction rs as [|recipient rest IH]; intros s.
  - exists []. simpl. rewrite app_nil_r.
    split; [reflexivity|]. split; [reflexivity|]. intros msg e' [].
  - rewrite send_each_cons.
    destruct (to_string summary) as [shown|].
    2:{ exists []. simpl. rewrite app_nil_r.
        split; [reflexivity|]. split; [reflexivity|]. intros msg e' []. }
    cbv zeta.
    destruct (sg_send E _ (world s)) as [[[]|e] w].
    2:{ eexists [SgSend _ (Some e)]. cbn [fst snd trace].
        split; [reflexivity|]. split; [reflexivity|].
        intros msg e' [H | []]. now injection H as _ <-. }
    destruct (to_string recipient) as [shown_recipient|].
    2:{ eexists [SgSend _ None]. cbn [fst snd trace].
        split; [reflexivity|]. split; [reflexivity|].
        intros msg e' [H | []]. discriminate H. }
    match goal with
    | |- context [send_each E rest subject summary sender ?st] =>
        destruct (IH st) as (evs & Htr & Hposts & Hfail)
    end.
    cbn [trace] in Htr.
    eexists (SgSend _ None :: ConsoleLog _ :: evs).
    split; [rewrite Htr; now rewrite <- !app_assoc|].
    split; [exact Hposts|].
    intros msg e' [H | [H | H]]; try discriminate H.
    now apply Hfail with (msg := msg).
Qed.

(** [sendEmail], run from a state, for each of its three branches. *)
Lemma sendEmail_run recipients subject summary sender s :
  let key := getenv E (lit "SENDGRID_API_KEY") in
  sendEmail E recipients subject summary sender s
  = let debug :=
      [ConsoleLog [JStr (lit "Debug: SENDGRID_API_KEY =");
                   key_preview key (lit "NOT FOUND")];
       ConsoleLog [JStr (lit "Debug: All environment variables:");
                   JArr (map JStr (filter (includes (lit "SENDGRID"))
                                          (map fst (process_env E))))]] in
    if negb (configured key) then
      (Ret true,
       {| world := world s;
          trace := trace s ++ debug
                   ++ [ConsoleLog [JStr (lit "Email would be sent to:");
                                   JArr recipients];
                       ConsoleLog [JStr (lit "Subject:"); subject];
                       ConsoleLog [JStr (lit "Content:"); summary];
                       ConsoleLog [JStr (lit "Note: To send real emails, configure SENDGRID_API_KEY in .env file")];
                       SetTimeout 1000] |})
    else if negb (startsWith (lit "SG.") (env_string key)) then
      (Throw (Error (lit "Invalid SendGrid API key format")),
       {| world := world s;
          trace := trace s ++ debug
                   ++ [ConsoleLog [JStr (lit "Error: SendGrid API key must start with "
                                         ++ dquote ++ lit "SG." ++ dquote)];
                       ConsoleLog [JStr (lit "Current API key format:");
                                   key_preview key (lit "EMPTY")];
                       ConsoleError (lit "Email sending failed:")
                         (Error (lit "Invalid SendGrid API key format"))] |})
    else
      match send_each E recipients subject summary (sender_or_default sender)
              {| world := sg_setApiKey E (env_string key) (world s);
                 trace := trace s ++ debug ++ [SetApiKey (env_string key)] |}
      with
      | (Ret _, s') => (Ret true, s')
      | (Throw e, s') =>
          (Throw e,
           {| world := world s';
              trace := trace s'
                       ++ [ConsoleError (lit "Email sending failed:") e] |})
      end.
Proof.
  intros key. subst key. unfold sendEmail. unfold_m. cbv zeta.
  destruct (configured (getenv E (lit "SENDGRID_API_KEY"))); cbn [negb].
  2:{ cbn [world trace]. now rewrite <- !app_assoc. }
  destruct (startsWith (lit "SG.")
              (env_string (getenv E (lit "SENDGRID_API_KEY")))); cbn [negb].
  2:{ cbn [world trace]. now rewrite <- !app_assoc. }
  cbn [world trace]. rewrite <- !app_assoc. cbn [app].
  destruct (send_each E recipients subject summary
              (sender_or_default sender) _) as [[[]|e] s']; reflexivity.
Qed.

(** Every Share request is answered: the handler never throws, and its
    answer is the success payload or one of its two fixed errors, the client
    error exactly when the summary is falsy or the recipients value is not a
    list. *)
Theorem api_share_always_responds body s :
  exists resp,
    fst (api_share E body s) = Ret resp
    /\ (resp = share_success
        \/ resp = error_response 400 (lit "Invalid request data")
        \/ resp = error_response 500 (lit "Failed to send email"))
    /\ (resp = error_response 400 (lit "Invalid request data") <->
        truthy (share_summary body) && isArray (share_recipients body)
        = false).
Proof.
  destruct (truthy (share_summary body)) eqn:Hsum;
    [destruct (isArray (share_recipients body)) eqn:Harr|]; cbn [andb].
  - rewrite api_share_valid by assumption.
    destruct (sendEmail E _ _ _ _ s) as [[b|e] s']; cbn [fst];
      eexists; (split; [reflexivity|]); (split; [auto|]);
      split; discriminate.
  - rewrite api_share_invalid by auto. eexists. split; [reflexivity|].
    split; [auto|]. split; reflexivity.
  - rewrite api_share_invalid by auto. eexists. split; [reflexivity|].
    split; [auto|]. split; reflexivity.
Qed.

(** Without a delivery credential a valid Share request is answered with
    success while nothing is delivered: the world is left as it was, the
    recipients, the subject and the content are written to the console in
    that order, and the one-second timer is the last event. *)
Theorem share_without_credential_logs body s :
  configured (getenv E (lit "SENDGRID_API_KEY")) = false ->
  truthy (share_summary body) = true ->
  isArray (share_recipients body) = true ->
  exists debug,
    api_share E body s
    = (Ret share_success,
       {| world := world s;
          trace := trace s ++ debug
                   ++ [ConsoleLog [JStr (lit "Email would be sent to:");
                                   share_recipients body];
                       ConsoleLog [JStr (lit "Subject:"); share_subject body];
                       ConsoleLog [JStr (lit "Content:"); share_summary body];
                       ConsoleLog [JStr (lit "Note: To send real emails, configure SENDGRID_API_KEY in .env file")];
                       SetTimeout 1000] |})
    /\ forallb is_console debug = true.
Proof.
  intros Hk Hsum Harr. rewrite api_share_valid by assumption.
  rewrite sendEmail_run. cbv zeta. rewrite Hk. cbn [negb].
  destruct (share_recipients body) as [| | | | |rs|] eqn:Hrs;
    try discriminate Harr.
  cbn [array_elems]. eexists. split; [reflexivity|]. reflexivity.
Qed.


(** The error behind a failed Share request is written to the console
    twice, by [sendEmail] and by the handler, as the last two events; it is
    the error of the rejected delivery call when there is one, and the
    answer to the caller is the same fixed message whatever the error. *)
Theorem share_failure_logged body s :
  fst (api_share E body s)
  = Ret (error_response 500 (lit "Failed to send email")) ->
  exists e evs,
    trace (snd (api_share E body s))
    = trace s ++ evs
      ++ [ConsoleError (lit "Email sending failed:") e;
          ConsoleError (lit "Email error:") e]
    /\ posts evs = []
    /\ (forall msg e', In (SgSend msg (Some e')) evs -> e' = e).
Proof.
  destruct (truthy (share_summary body)) eqn:Hsum;
    [destruct (isArray (share_recipients body)) eqn:Harr|].
  2,3: rewrite api_share_invalid by auto; discriminate.
  rewrite api_share_valid by assumption. rewrite sendEmail_run. cbv zeta.
  destruct (configured (getenv E (lit "SENDGRID_API_KEY"))); cbn [negb];
    [|discriminate].
  destruct (startsWith (lit "SG.")
              (env_string (getenv E (lit "SENDGRID_API_KEY")))); cbn [negb].
  - match goal with
    | |- context [send_each E ?rs ?subj ?summ ?sndr ?st] =>
        destruct (send_each_events rs subj summ sndr st)
          as (evs & Htr & Hposts & Hfail);
        destruct (send_each E rs subj summ sndr st) as [[[]|e] s'] eqn:Hrun
    end; cbn [fst snd trace world] in *; [discriminate|].
    intros _. exists e.
    match type of Htr with
    | _ = (trace s ++ ?pre) ++ evs => exists (pre ++ evs)
    end.
    rewrite Htr.
    split; [now rewrite <- !app_assoc|].
    split; [now rewrite posts_app, Hposts|].
    intros msg e' Hin. apply in_app_or in Hin as [Hin | Hin].
    + simpl in Hin.
      repeat (destruct Hin as [Hin | Hin]; [discriminate Hin|]).
      contradiction.
    + apply Hfail in Hin. congruence.
  - intros _. cbn [fst snd trace world].
    match goal with
    | |- exists e evs,
           (trace s ++ ?debug ++ [?l1; ?l2; ConsoleError _ ?e0]) ++ _ = _
           /\ _ =>
        exists e0, (debug ++ [l1; l2])
    end.
    split; [now rewrite <- !app_assoc|].
    split; [reflexivity|].
    intros msg e' Hin. simpl in Hin.
    repeat (destruct Hin as [Hin | Hin]; [discriminate Hin|]).
    contradiction.
Qed.

Lemma map_by_index {A B} (f : A -> B) (a : list A) (b : list B) :
  List.length a = List.length b ->
  (forall i x, nth_error a i = Some x -> nth_error b i = Some (f x)) ->
  map f a = b.
Proof.
  revert b; induction a as [|x a IH]; intros [|y b] Hlen H;
    try discriminate Hlen; [reflexivity|].
  simpl. f_equal.
  - specialize (H 0 x eq_refl). simpl in H. congruence.
  - apply IH; [simpl in Hlen; lia|].
    intros i x' Hi. exact (H (S i) x' Hi).
Qed.

(** Under a configured delivery credential the success answer means that
    the credential is well formed and that every recipient, in list order,
    got exactly one delivery call, each accepted by the transport. *)
Theorem share_success_means_delivered body (rs : list jsval)
    (key : jsstring) s :
  getenv E (lit "SENDGRID_API_KEY") = Some key ->
  key <> [] ->
  share_recipients body = JArr rs ->
  fst (api_share E body s) = Ret share_success ->
  startsWith (lit "SG.") key = true
  /\ exists calls : list (Msg * option Err),
       sends (trace (snd (api_share E body s))) = sends (trace s) ++ calls
       /\ map (fun c => msg_to (fst c)) calls = rs
       /\ Forall (fun c => snd c = None) calls.
Proof.
  intros Hk Hne Hrs Hok.
  assert (Hc : configured (getenv E (lit "SENDGRID_API_KEY")) = true).
  { rewrite Hk. destruct key; [congruence | reflexivity]. }
  destruct (truthy (share_summary body)) eqn:Hsum.
  2:{ rewrite api_share_invalid in Hok by auto. discriminate Hok. }
  destruct (startsWith (lit "SG.") key) eqn:Hp.
  2:{ assert (Hp' : startsWith (lit "SG.")
                      (env_string (getenv E (lit "SENDGRID_API_KEY")))
                    = false) by now rewrite Hk.
      assert (Harr : isArray (share_recipients body) = true)
        by now rewrite Hrs.
      destruct (@api_share_malformed World E body s Hc Hp' Hsum Harr)
        as (evs & Hrun & _).
      rewrite Hrun in Hok. discriminate Hok. }
  split; [reflexivity|].
  revert Hok. rewrite api_share_valid by (rewrite ?Hrs; auto).
  rewrite Hrs. cbn [array_elems].
  rewrite (@sendEmail_wellformed World E rs (share_subject body)
             (share_summary body) (share_sender body) key s Hk Hp).
  match goal with
  | |- context [send_each E rs ?subj ?summ ?sndr ?st] =>
      destruct (send_each_spec E rs subj summ sndr st)
        as (calls & Htr & Hlen & Hmsg & Hfail & Hall & _);
      destruct (send_each E rs subj summ sndr st) as [[[]|e] s'] eqn:Hrun
  end; cbn [fst snd trace] in *; [|discriminate].
  intros _. exists calls.
  rewrite sends_app in Htr. change (sends (preamble E key)) with
    (@nil (Msg * option Err)) in Htr. rewrite app_nil_r in Htr.
  split; [exact Htr|]. split.
  - apply map_by_index; [now apply Hall|].
    intros i [msg failure] Hi.
    destruct (Hmsg i msg failure Hi) as (recipient & shown & Hr & _ & ->).
    exact Hr.
  - apply Forall_forall. intros [msg [e|]] Hin; [|reflexivity].
    apply In_nth_error in Hin as [i Hi].
    destruct (Hfail i msg e Hi) as [_ Habs]. discriminate Habs.
Qed.

End MoreHandlers.

(* ----------------------------------------------------------------- *)
(** ** The page *)

Section PageProperties.

Import Page.

Lemma tags_include_In (email : jsstring) (tags : list jsstring) :
  tags_include email tags = true <-> In email tags.
Proof.
  unfold tags_include. rewrite existsb_exists. split.
  - intros (x & Hin & Heq). apply str_eqb_eq in Heq. now subst.
  - intros Hin. exists email. split; [exact Hin | apply str_eqb_refl].
Qed.

Lemma filter_absent (email : jsstring) (tags : list jsstring) :
  ~ In email tags ->
  filter (fun r => negb (str_eqb r email)) tags = tags.
Proof.
  induction tags as [|t tags IH]; intros Hnot; [reflexivity|].
  simpl. destruct (str_eqb t email) eqn:Heq.
  - apply str_eqb_eq in Heq. subst. elim Hnot. now left.
  - simpl. f_equal. apply IH. intros Hin. apply Hnot. now right.
Qed.

(** The recipient list is well formed: no address twice, none empty, none
    with white space around it. *)
Definition tags_ok (tags : list jsstring) : Prop :=
  NoDup tags /\ Forall (fun t => t <> [] /\ trim t = t) tags.

Lemma addRecipient_tags_ok (st : AppState) :
  tags_ok (recipientTags st) -> tags_ok (recipientTags (addRecipient st)).
Proof.
  intros [Hnd Hall]. unfold addRecipient.
  destruct (is_empty (trim (shareRecipients st))) eqn:Hempty;
    [now split|].
  destruct (tags_include (trim (shareRecipients st)) (recipientTags st))
    eqn:Hin; [now split|].
  cbn [negb andb setShareRecipients setRecipientTags recipientTags].
  apply is_empty_false in Hempty. split.
  - apply NoDup_app; [exact Hnd | repeat constructor; intros [] |].
    intros x Hx [<- | []].
    apply tags_include_In in Hx. congruence.
  - apply Forall_app. split; [exact Hall|].
    constructor; [|constructor]. split; [exact Hempty|].
    apply trim_idempotent.
Qed.

Lemma removeRecipient_tags_ok (email : jsstring) (st : AppState) :
  tags_ok (recipientTags st) ->
  tags_ok (recipientTags (removeRecipient email st)).
Proof.
  intros [Hnd Hall]. unfold removeRecipient.
  cbn [setRecipientTags recipientTags]. split.
  - now apply NoDup_filter.
  - rewrite Forall_forall in *. intros t Ht.
    apply filter_In in Ht as [Ht _]. now apply Hall.
Qed.

Lemma act_tags_ok (a : Action) (st : AppState) :
  tags_ok (recipientTags st) -> tags_ok (recipientTags (act a st)).
Proof.
  assert (Hnil : tags_ok []) by (split; constructor).
  intros Hok. destruct a; cbn [act]; try exact Hok.
  - destruct file; exact Hok.
  - unfold handleGenerateSummary_begin.
    destruct (is_empty (trim (transcript st))); exact Hok.
  - unfold handleGenerateSummary_end. cbv zeta.
    destruct result as [data|response_data]; [|exact Hok].
    destruct (get_prop data (lit "success")) as [flag|]; [|exact Hok].
    destruct (truthy flag); exact Hok.
  - unfold handleKeyPress. destruct (str_eqb key (lit "Enter"));
      [now apply addRecipient_tags_ok | exact Hok].
  - now apply addRecipient_tags_ok.
  - now apply removeRecipient_tags_ok.
  - unfold handleShare_begin.
    destruct (editableSummary st); try exact Hok.
    destruct (is_empty (trim s) || Nat.eqb (List.length (recipientTags st)) 0);
      exact Hok.
  - unfold handleShare_end. cbv zeta.
    destruct result as [data|response_data]; [|exact Hok].
    destruct (get_prop data (lit "success")) as [flag|]; [|exact Hok].
    destruct (truthy flag); [exact Hnil | exact Hok].
  - exact Hnil.
Qed.

(** Whatever the user, the file reader and the network do, the recipient
    list of the page never holds an address twice, an empty address, or an
    address with white space around it. *)
Theorem recipient_tags_invariant (actions : list Action) :
  NoDup (recipientTags (after actions initial))
  /\ Forall (fun t => t <> [] /\ trim t = t)
            (recipientTags (after actions initial)).
Proof.
  change (tags_ok (recipientTags (after actions initial))).
  assert (Hgen : forall st, tags_ok (recipientTags st) ->
                            tags_ok (recipientTags (after actions st))).
  { induction actions as [|a actions IH]; intros st Hok; [exact Hok|].
    apply IH. now apply act_tags_ok. }
  apply Hgen. split; constructor.
Qed.

(** Adding an address that is not on the list and removing it again gives
    the list back; after a removal the address is not on the list, and every
    other address is, in the order it had. *)
Theorem add_then_remove (st : AppState) (email : jsstring) :
  trim (shareRecipients st) <> [] ->
  ~ In (trim (shareRecipients st)) (recipientTags st) ->
  recipientTags (addRecipient st)
  = recipientTags st ++ [trim (shareRecipients st)]
  /\ shareRecipients (addRecipient st) = []
  /\ recipientTags (removeRecipient (trim (shareRecipients st))
                      (addRecipient st))
     = recipientTags st
  /\ ~ In email (recipientTags (removeRecipient email st))
  /\ (forall other, other <> email ->
        (In other (recipientTags (removeRecipient email st))
         <-> In other (recipientTags st))).
Proof.
  intros Hne Hnew.
  assert (Hadd : addRecipient st
                 = setShareRecipients []
                     (setRecipientTags
                        (recipientTags st ++ [trim (shareRecipients st)]) st)).
  { unfold addRecipient. apply is_empty_false in Hne. rewrite Hne.
    destruct (tags_include (trim (shareRecipients st)) (recipientTags st))
      eqn:Hin; [|reflexivity].
    apply tags_include_In in Hin. contradiction. }
  rewrite Hadd. cbn [setShareRecipients setRecipientTags recipientTags
                       shareRecipients removeRecipient].
  split; [reflexivity|]. split; [reflexivity|]. split; [|split].
  - rewrite filter_app, (@filter_absent _ _ Hnew). simpl.
    now rewrite str_eqb_refl, app_nil_r.
  - intros Hin. apply filter_In in Hin as [_ Hneq].
    now rewrite str_eqb_refl in Hneq.
  - intros other Hother. rewrite filter_In. split; [now intros [H _]|].
    intros Hin. split; [exact Hin|].
    destruct (str_eqb other email) eqn:Heq; [|reflexivity].
    apply str_eqb_eq in Heq. contradiction.
Qed.

End PageProperties.

(* ----------------------------------------------------------------- *)
(** ** The page and the server together *)

Section PageAndServer.

Import Page.

Variable World : Type.
Variable E : Env World.

Implicit Types (s : State World) (st : AppState).

(** The body the page posts to [/api/share] always passes the validation of
    the handler: the page posts only with a summary that is not blank and at
    least one recipient, the subject it sends is never empty, and the
    handler answers with success or with the delivery error, never with
    [Invalid request data]. *)
Theorem page_share_request_valid st st' (body : ShareBody) s :
  handleShare_begin st = Ret (st', Some body) ->
  (exists text, editableSummary st = JStr text /\ trim text <> []
                /\ share_summary body = JStr text)
  /\ recipientTags st <> []
  /\ share_recipients body = JArr (map JStr (recipientTags st))
  /\ (exists subject, share_subject body = JStr subject /\ subject <> [])
  /\ (fst (api_share E body s) = Ret share_success
      \/ fst (api_share E body s)
         = Ret (error_response 500 (lit "Failed to send email"))).
Proof.
  unfold handleShare_begin.
  destruct (editableSummary st) as [| | | |text| |]; try discriminate.
  destruct (is_empty (trim text)) eqn:Hb; [discriminate|].
  destruct (Nat.eqb (List.length (recipientTags st)) 0) eqn:Hn;
    [discriminate|].
  cbn [orb]. intros H. injection H as _ <-.
  apply is_empty_false in Hb. apply Nat.eqb_neq in Hn.
  split; [now exists text|]. split; [now intros Habs; rewrite Habs in Hn|].
  split; [reflexivity|]. split.
  - cbn [share_subject]. destruct (shareSubject st) as [|c subject] eqn:Hs.
    + eexists. split; [reflexivity | discriminate].
    + eexists. split; [reflexivity | discriminate].
  - rewrite api_share_valid.
    + destruct (sendEmail E _ _ _ _ s) as [[b|e] s']; [now left | now right].
    + cbn [share_summary truthy]. apply trim_nil_inv in Hb.
      now destruct text.
    + reflexivity.
Qed.






(** Share, from click to answer: when the handler answers with success the
    page shows its notice, closes the share panel and empties the subject,
    the address box and the recipient list; when it answers with the
    delivery error the page shows the message of the server and keeps the
    recipients, the subject and the summary as they were.  Either way the
    sharing flag is off again. *)
Theorem page_share_roundtrip st st1 (body : ShareBody) s :
  handleShare_begin st = Ret (st1, Some body) ->
  exists resp,
    fst (api_share E body s) = Ret resp
    /\ let st2 := handleShare_end (axios_result resp) st1 in
       isSharing st2 = false
       /\ editableSummary st2 = editableSummary st
       /\ ((resp = share_success
            /\ success st2 = lit "Summary shared successfully!"
            /\ error st2 = JStr []
            /\ showShare st2 = false
            /\ shareSubject st2 = []
            /\ shareRecipients st2 = []
            /\ recipientTags st2 = [])
           \/ (resp = error_response 500 (lit "Failed to send email")
               /\ error st2 = JStr (lit "Failed to send email")
               /\ success st2 = []
               /\ recipientTags st2 = recipientTags st
               /\ shareSubject st2 = shareSubject st)).
Proof.
  intros Hbegin.
  assert (Hst1 : st1 = setSuccess [] (setError (JStr [])
                                        (setIsSharing true st))
                 /\ truthy (share_summary body) = true
                 /\ isArray (share_recipients body) = true).
  { unfold handleShare_begin in Hbegin.
    destruct (editableSummary st) as [| | | |text| |];
      try discriminate Hbegin.
    destruct (is_empty (trim text)) eqn:Hb; [discriminate Hbegin|].
    destruct (Nat.eqb (List.length (recipientTags st)) 0);
      [discriminate Hbegin|].
    cbn [orb] in Hbegin. injection Hbegin as <- <-.
    apply is_empty_false, trim_nil_inv in Hb.
    split; [reflexivity|]. split; [now destruct text | reflexivity]. }
  destruct Hst1 as (-> & Hsum & Harr).
  assert (Hresp : fst (api_share E body s) = Ret share_success
                  \/ fst (api_share E body s)
                     = Ret (error_response 500
                              (lit "Failed to send email"))).
  { rewrite api_share_valid by assumption.
    destruct (sendEmail E _ _ _ _ s) as [[b|e] s'];
      [now left | now right]. }
  destruct Hresp as [Hresp | Hresp]; rewrite Hresp;
    eexists; (split; [reflexivity|]); cbv zeta.
  - split; [reflexivity|]. split; [reflexivity|]. left.
    repeat (split; [reflexivity|]). reflexivity.
  - split; [reflexivity|]. split; [reflexivity|]. right.
    repeat (split; [reflexivity|]). reflexivity.
Qed.

End PageAndServer.

(* ----------------------------------------------------------------- *)
(** ** The further properties on the sample requests and pages *)

Lemma keyPoints_shape_witness :
  List.length (keyPoints five_fragments) = 5
  /\ List.length (keyPoints two_fragments) = 2.
Proof.
  split.
  - rewrite (proj1 (keyPoints_shape five_fragments)). vm_compute. reflexivity.
  - rewrite (proj1 (keyPoints_shape two_fragments)). vm_compute. reflexivity.
Defined.

Lemma summarize_primary_verbatim_witness :
  fst (api_summarize env_groq_up (summarize_text (JStr two_fragments)) start)
  = Ret (summarize_success (JStr (lit "Done")) two_fragments)
  /\ posts (trace (snd (api_summarize env_groq_up
                          (summarize_text (JStr two_fragments)) start)))
     = [AxiosPost groq_url
          (completion_data two_fragments default_instructions)
          (completion_config (lit "gsk_sample"))].
Proof.
  destruct (@summarize_primary_verbatim nat env_groq_up
              (summarize_text (JStr two_fragments)) two_fragments
              (lit "gsk_sample") default_instructions
              (match fst (post_up groq_url JNull JNull 0) with
               | Ret response => response
               | Throw _ => JNull
               end) (JStr (lit "Done")) 0
              start) as (Hrun & _); try reflexivity; try discriminate.
  rewrite Hrun. split; reflexivity.
Defined.

Lemma share_without_credential_logs_witness :
  fst (api_share env_bare (share_to (JArr three_recipients)) start)
  = Ret share_success
  /\ world (snd (api_share env_bare (share_to (JArr three_recipients)) start))
     = 0.
Proof.
  destruct (@share_without_credential_logs nat env_bare
              (share_to (JArr three_recipients)) start)
    as (debug & Hrun & _); try reflexivity.
  rewrite Hrun. split; reflexivity.
Defined.

Lemma share_failure_logged_witness :
  exists e evs,
    trace (snd (api_share env_mail (share_to (JArr three_recipients)) start))
    = evs ++ [ConsoleError (lit "Email sending failed:") e;
              ConsoleError (lit "Email error:") e]
    /\ posts evs = [].
Proof.
  destruct (@share_failure_logged nat env_mail
              (share_to (JArr three_recipients)) start)
    as (e & evs & Htr & Hposts & _).
  - vm_compute. reflexivity.
  - exists e, evs. split; [exact Htr | exact Hposts].
Defined.

Lemma share_success_means_delivered_witness :
  exists calls : list (Msg * option Err),
    sends (trace (snd (api_share env_mail_ok
                         (share_to (JArr three_recipients)) start))) = calls
    /\ map (fun c => msg_to (fst c)) calls = three_recipients
    /\ Forall (fun c => snd c = None) calls.
Proof.
  destruct (@share_success_means_delivered nat env_mail_ok
              (share_to (JArr three_recipients)) three_recipients
              (lit "SG.sample-key") start)
    as (_ & calls & Htr & Hto & Hok).
  - reflexivity.
  - discriminate.
  - reflexivity.
  - vm_compute. reflexivity.
  - exists calls. split; [exact Htr|]. split; [exact Hto | exact Hok].
Defined.

Lemma add_then_remove_witness :
  Page.recipientTags
    (Page.removeRecipient (lit "cy@example.org")
       (Page.addRecipient page_ready_to_share))
  = [lit "ann@example.org"; lit "bob@example.org"].
Proof.
  destruct (@add_then_remove page_ready_to_share (lit "cy@example.org"))
    as (_ & _ & Hback & _).
  - vm_compute. discriminate.
  - vm_compute. intuition discriminate.
  - exact Hback.
Defined.

Lemma page_share_request_valid_witness :
  exists body,
    Page.handleShare_begin page_ready_to_share
    = Ret (Page.setSuccess []
             (Page.setError (JStr [])
                (Page.setIsSharing true page_ready_to_share)),
           Some body)
    /\ share_recipients body
       = JArr [JStr (lit "ann@example.org"); JStr (lit "bob@example.org")]
    /\ (fst (api_share env_mail body start) = Ret share_success
        \/ fst (api_share env_mail body start)
           = Ret (error_response 500 (lit "Failed to send email"))).
Proof.
  eexists. split; [vm_compute; reflexivity|].
  destruct (@page_share_request_valid nat env_mail page_ready_to_share
              _ _ start eq_refl) as (_ & _ & Hrs & _ & Hresp).
  split; [exact Hrs | exact Hresp].
Defined.



Lemma page_share_roundtrip_witness :
  exists resp,
    fst (api_share env_mail
           {| share_summary := JStr (lit "Notes");
              share_recipients :=
                JArr [JStr (lit "ann@example.org");
                      JStr (lit "bob@example.org")];
              share_subject := JStr (lit "Meeting Summary Shared");
              share_sender := JStr (lit "amanbhagat.191@gmail.com") |} start)
    = Ret resp
    /\ Page.isSharing
         (Page.handleShare_end (Page.axios_result resp)
            (Page.setSuccess []
               (Page.setError (JStr [])
                  (Page.setIsSharing true page_ready_to_share))))
       = false.
Proof.
  destruct (@page_share_roundtrip nat env_mail page_ready_to_share _ _ start
              eq_refl) as (resp & Hresp & Hflag & _).
  exists resp. split; [exact Hresp | exact Hflag].
Defined.

(** The worked end of the two round trips: the second of two deliveries is
    rejected, and the page keeps its recipients and shows the message of
    the server; without a completion credential the page shows the fallback
    summary. *)
Example page_share_failure_run :
  let st1 := Page.act Page.ClickShare page_ready_to_share in
  let body :=
    {| share_summary := JStr (lit "Notes");
       share_recipients :=
         JArr [JStr (lit "ann@example.org"); JStr (lit "bob@example.org")];
       share_subject := JStr (lit "Meeting Summary Shared");
       share_sender := JStr (lit "amanbhagat.191@gmail.com") |} in
  Page.handleShare_begin page_ready_to_share = Ret (st1, Some body)
  /\ match fst (api_share env_mail body start) with
     | Ret resp =>
         let st2 := Page.act (Page.ShareAnswer (Page.axios_result resp)) st1 in
         Page.error st2 = JStr (lit "Failed to send email")
         /\ Page.recipientTags st2
            = [lit "ann@example.org"; lit "bob@example.org"]
     | Throw _ => False
     end.
Proof. vm_compute. repeat split; reflexivity. Qed.

Example page_generate_fallback_run :
  match fst (api_summarize env_bare
               {| req_file := None;
                  req_customPrompt := JStr (lit "Be brief");
                  req_transcript := JStr two_fragments |} start) with
  | Ret resp =>
      Page.summary
        (Page.after [Page.ClickGenerate;
                     Page.SummarizeAnswer (Page.axios_result resp)]
           page_with_transcript)
      = JStr (lit "Custom Instructions: Be brief" ++ nl ++ nl
              ++ lit "Summary:" ++ nl
              ++ bullet ++ lit "Budget review went fine" ++ nl
              ++ bullet ++ lit "Next meeting is on Monday")
  | Throw _ => False
  end.
Proof. vm_compute. reflexivity. Qed.
